(** * ExecutiveFeedbackSystem: the confidential 360-degree feedback contract

    A shallow embedding of the Solidity contract [ExecutiveFeedbackSystem]
    (the contract text shipped at the end of [frontend/web/src/App.tsx])
    and the properties of its feedback log, its aggregation gate, its two
    oracle callbacks and its read accessors.

    Conventions.
    - [uint256], [uint32], [address] and [bytes32] are [N]; Solidity 0.8
      arithmetic is checked, so an increment or product that leaves the
      256-bit range fails with [Panic 0x11] instead of wrapping.
    - A [mapping] is a [gmap] read through [mget], which returns the zero
      value of the value type on a key that was never written.
    - A fixed-size array [T[5]] is a [vec T 5]; an index that is computed at
      run time goes through [vget]/[vset], which fail with [Panic 0x32] when
      it is out of range.
    - A call either reverts (storage untouched) or yields the new storage,
      the effects it had on the outside (events, oracle requests) and its
      return data. *)

From Stdlib Require Import NArith String List Lia QArith Lqa.
From Stdlib.Strings Require Import Byte Ascii.
From stdpp Require Import base option list vector gmap strings sorting.

Local Open Scope N_scope.

(** ** Machine types *)

Abbreviation uint256 := N (only parsing).
Abbreviation uint32 := N (only parsing).
Abbreviation address := N (only parsing).
Abbreviation bytes32 := N (only parsing).
(** [type euint32 is bytes32]: an encrypted value is the 32-byte handle under
    which the coprocessor stores it. *)
Abbreviation euint32 := N (only parsing).
Abbreviation bytes := (list byte) (only parsing).

Definition MAX_UINT256 : N := 2 ^ 256 - 1.

(** ** Failures and the result monad *)

Inductive Failure : Type :=
  | Revert (reason : string)      (* a failed [require] *)
  | Panic (code : N)              (* 0x11 overflow, 0x32 index out of range *)
  | InvalidSignatures             (* [FHE.checkSignatures] rejected the proof *)
  | DecodeRevert                  (* [abi.decode] rejected the payload *)
  | OutOfFuel.                    (* a loop given too few iterations *)

Inductive res (A : Type) : Type :=
  | Ok (a : A)
  | Err (f : Failure).
Arguments Ok {A} a.
Arguments Err {A} f.

#[global] Instance res_ret : MRet res := @Ok.
#[global] Instance res_bind : MBind res := λ A B k m,
  match m with
  | Ok a => k a
  | Err f => Err f
  end.

Definition is_Ok {A} (r : res A) : Prop := ∃ a, r = Ok a.

Definition succeeds {A} (r : res A) : bool :=
  match r with Ok _ => true | Err _ => false end.

Definition require (cond : bool) (reason : string) : res unit :=
  if cond then Ok tt else Err (Revert reason).

(** [x + 1] and [x * y] on [uint256] under checked arithmetic. *)
Definition checked_succ (x : uint256) : res uint256 :=
  if x <? MAX_UINT256 then Ok (x + 1) else Err (Panic 0x11).

Definition checked_mul (x y : uint256) : res uint256 :=
  if x * y <=? MAX_UINT256 then Ok (x * y) else Err (Panic 0x11).

(** [for (uint i = start; cond(i); i++) body]: the body threads the variables
    it assigns through [a]. [fuel] bounds the number of iterations. *)
Fixpoint for_loop {A} (fuel : nat) (cond : uint256 → bool) (i : uint256)
    (body : uint256 → A → res A) (a : A) : res A :=
  if cond i then
    match fuel with
    | O => Err OutOfFuel
    | S fuel' =>
        a' ← body i a;
        i' ← checked_succ i;
        for_loop fuel' cond i' body a'
    end
  else Ok a.

(** ** Arrays *)

(** [v[i]] on a fixed-size array. *)
Definition vget {A n} (v : vec A n) (i : uint256) : res A :=
  match vec_to_list v !! N.to_nat i with
  | Some x => Ok x
  | None => Err (Panic 0x32)
  end.

(** [v[i] = x] on a fixed-size memory array. *)
Definition vset {A n} (v : vec A n) (i : uint256) (x : A) : res (vec A n) :=
  match decide (N.to_nat i < n)%nat with
  | left H => Ok (vinsert (nat_to_fin H) x v)
  | right _ => Err (Panic 0x32)
  end.

(** [arr[i] = x] on a dynamic memory array. *)
Definition awrite {A} (arr : list A) (i : uint256) (x : A) : res (list A) :=
  if (N.to_nat i <? length arr)%nat then Ok (<[N.to_nat i := x]> arr)
  else Err (Panic 0x32).

(** ** Solidity zero values and mappings *)

Class Zero (A : Type) := zero : A.

#[global] Instance bool_zero : Zero bool := false.
#[global] Instance N_zero : Zero N := 0.

Definition mget {V} `{Zero V} (m : gmap N V) (k : N) : V :=
  default zero (m !! k).

(** ** ABI decoding of [(uint32[5], uint32)] *)

Definition be_word (bs : bytes) : N :=
  foldl (λ acc b, acc * 256 + Byte.to_N b) 0 bs.

Definition word_at (data : bytes) (k : nat) : N :=
  be_word (take 32 (drop (32 * k) data)).

(** A head word that does not fit the declared type makes the decoder revert. *)
Definition decode_uint32 (data : bytes) (k : nat) : res uint32 :=
  let w := word_at data k in
  if w <? 2 ^ 32 then Ok w else Err DecodeRevert.

(** Both components are static, so the tuple is six consecutive words; bytes
    after them are ignored. *)
Definition abi_decode (data : bytes) : res (vec uint32 5 * uint32) :=
  if (length data <? 192)%nat then Err DecodeRevert
  else
    a0 ← decode_uint32 data 0;
    a1 ← decode_uint32 data 1;
    a2 ← decode_uint32 data 2;
    a3 ← decode_uint32 data 3;
    a4 ← decode_uint32 data 4;
    o ← decode_uint32 data 5;
    Ok ([# a0; a1; a2; a3; a4], o).

(** The encoder, used to build payloads. *)
Definition encode_word (w : N) : bytes :=
  map (λ k : nat, default x00 (Byte.of_N ((w / 256 ^ N.of_nat k) mod 256)))
      (rev (seq 0 32)).

Definition abi_encode (avgs : vec uint32 5) (overall : uint32) : bytes :=
  concat (map encode_word (vec_to_list avgs)) ++ encode_word overall.

(** ** The FHE library

    [FHE.sol] is an external dependency: the contract only relies on the three
    pure operations below and on the two request calls. A request call
    reaches the coprocessor, which is taken to accept it, and shows up as an
    effect; the id it returns is dropped by the contract. [checkSignatures]
    reverts when the proof does not match the request id and the payload; the
    boolean is whether it lets the call continue. *)
Class FHELib : Type := {
  toBytes32 : euint32 → bytes32;
  asEuint32 : uint32 → euint32;
  checkSignatures : uint256 → bytes → bytes → bool;
}.

(** ** Contract data *)

Record FeedbackCategory : Type := {
  encryptedScore : euint32;
  encryptedWeight : euint32;
}.

Record EncryptedFeedback : Type := {
  executive : address;
  reviewer : address;
  categories : vec FeedbackCategory 5;
  encryptedComments : euint32;
  timestamp : uint256;
}.

Record LeadershipReport : Type := {
  encryptedAvgScores : vec euint32 5;
  encryptedOverallScore : euint32;
  isAggregated : bool;
}.

#[global] Instance FeedbackCategory_zero : Zero FeedbackCategory :=
  {| encryptedScore := 0; encryptedWeight := 0 |}.
#[global] Instance EncryptedFeedback_zero : Zero EncryptedFeedback :=
  {| executive := 0; reviewer := 0; categories := vreplicate 5 zero;
     encryptedComments := 0; timestamp := 0 |}.
#[global] Instance LeadershipReport_zero : Zero LeadershipReport :=
  {| encryptedAvgScores := vreplicate 5 0; encryptedOverallScore := 0;
     isAggregated := false |}.

(** Contract storage. *)
Record State : Type := {
  feedbackCount : uint256;
  feedbacks : gmap uint256 EncryptedFeedback;
  reports : gmap address LeadershipReport;
  isExecutive : gmap address bool;
  isReviewer : gmap address bool;
  feedbackPeriod : uint256;
}.

Definition MIN_REVIEWERS : uint256 := 5.

(** Storage right after deployment ([30 days] is 2592000 seconds). *)
Definition initial : State :=
  {| feedbackCount := 0; feedbacks := ∅; reports := ∅; isExecutive := ∅;
     isReviewer := ∅; feedbackPeriod := 2592000 |}.

Inductive Selector : Type :=
  | aggregateFeedback_selector
  | decryptReport_selector.

(** What a call does to the outside world. *)
Inductive Effect : Type :=
  | FeedbackSubmitted (id : uint256) (exec : address)
  | AggregationRequested (exec : address)
  | ReportGenerated (exec : address)
  | ReportDecrypted (exec : address)
  | RequestComputation (ciphertexts : list bytes32) (callback : Selector)
  | RequestDecryption (ciphertexts : list bytes32) (callback : Selector).

(** The [public] state variables, as the getters that read them. *)
Inductive Getter : Type :=
  | get_feedbackCount
  | get_feedbacks (id : uint256)
  | get_reports (a : address)
  | get_isExecutive (a : address)
  | get_isReviewer (a : address)
  | get_MIN_REVIEWERS
  | get_feedbackPeriod.

Definition word_of_bool (b : bool) : N := if b then 1 else 0.

(** [msg.sender] and [block.timestamp]. *)
Record Env : Type := {
  sender : address;
  now : uint256;
}.

Record Outcome : Type := {
  state : State;
  effects : list Effect;
  retdata : list N;           (* the returned values, none for a plain call *)
}.

Definition set_feedbacks (s : State) (count : uint256)
    (fb : gmap uint256 EncryptedFeedback) : State :=
  {| feedbackCount := count; feedbacks := fb; reports := reports s;
     isExecutive := isExecutive s; isReviewer := isReviewer s;
     feedbackPeriod := feedbackPeriod s |}.

Definition set_reports (s : State) (r : gmap address LeadershipReport) : State :=
  {| feedbackCount := feedbackCount s; feedbacks := feedbacks s; reports := r;
     isExecutive := isExecutive s; isReviewer := isReviewer s;
     feedbackPeriod := feedbackPeriod s |}.

Definition set_isExecutive (s : State) (m : gmap address bool) : State :=
  {| feedbackCount := feedbackCount s; feedbacks := feedbacks s;
     reports := reports s; isExecutive := m; isReviewer := isReviewer s;
     feedbackPeriod := feedbackPeriod s |}.

Definition set_isReviewer (s : State) (m : gmap address bool) : State :=
  {| feedbackCount := feedbackCount s; feedbacks := feedbacks s;
     reports := reports s; isExecutive := isExecutive s; isReviewer := m;
     feedbackPeriod := feedbackPeriod s |}.

Definition set_feedbackPeriod (s : State) (p : uint256) : State :=
  {| feedbackCount := feedbackCount s; feedbacks := feedbacks s;
     reports := reports s; isExecutive := isExecutive s;
     isReviewer := isReviewer s; feedbackPeriod := p |}.

(** ** The contract *)

Section Contract.
Context `{FHE : FHELib}.

(** The modifiers. *)
Definition onlyExecutive (env : Env) (s : State) : res unit :=
  require (mget (isExecutive s) (sender env)) "Not executive".

Definition onlyReviewer (env : Env) (s : State) : res unit :=
  require (mget (isReviewer s) (sender env)) "Not reviewer".

Definition registerExecutive (env : Env) (s : State) : res Outcome :=
  Ok {| state := set_isExecutive s (<[sender env := true]> (isExecutive s));
        effects := []; retdata := [] |}.

Definition approveReviewer (env : Env) (reviewer : address) (s : State)
    : res Outcome :=
  Ok {| state := set_isReviewer s (<[reviewer := true]> (isReviewer s));
        effects := []; retdata := [] |}.

Definition submitFeedback (env : Env) (executive : address)
    (encryptedScores encryptedWeights : vec euint32 5)
    (encryptedComments : euint32) (s : State) : res Outcome :=
  _ ← onlyReviewer env s;
  _ ← require (mget (isExecutive s) executive) "Invalid executive";
  newId ← checked_succ (feedbackCount s);
  categories ←
    for_loop 5 (λ i, i <? 5) 0
      (λ i categories,
         sc ← vget encryptedScores i;
         w ← vget encryptedWeights i;
         vset categories i {| encryptedScore := sc; encryptedWeight := w |})
      (vreplicate 5 zero);
  Ok {| state :=
          set_feedbacks s newId
            (<[newId := {| executive := executive;
                           reviewer := sender env;
                           categories := categories;
                           encryptedComments := encryptedComments;
                           timestamp := now env |}]> (feedbacks s));
        effects := [FeedbackSubmitted newId executive];
        retdata := [] |}.

(** The first loop of [requestAggregation]: how many of the records
    [1..feedbackCount] name the caller. *)
Definition count_loop (s : State) (who : address) : res uint256 :=
  for_loop (N.to_nat (feedbackCount s)) (λ i, i <=? feedbackCount s) 1
    (λ i feedbackCountForExec,
       if executive (mget (feedbacks s) i) =? who
       then checked_succ feedbackCountForExec
       else Ok feedbackCountForExec)
    0.

(** The body of the second loop for one record: five (score, weight) pairs,
    then the comment, each written at [index++]. *)
Definition collect_record (fb : EncryptedFeedback)
    (st : list bytes32 * uint256) : res (list bytes32 * uint256) :=
  st ← for_loop 5 (λ j, j <? 5) 0
         (λ j '(ciphertexts, index),
            c ← vget (categories fb) j;
            ciphertexts ← awrite ciphertexts index (toBytes32 (encryptedScore c));
            index ← checked_succ index;
            ciphertexts ← awrite ciphertexts index (toBytes32 (encryptedWeight c));
            index ← checked_succ index;
            Ok (ciphertexts, index))
         st;
  let '(ciphertexts, index) := st in
  ciphertexts ← awrite ciphertexts index (toBytes32 (encryptedComments fb));
  index ← checked_succ index;
  Ok (ciphertexts, index).

Definition collect_loop (s : State) (who : address)
    (st : list bytes32 * uint256) : res (list bytes32 * uint256) :=
  for_loop (N.to_nat (feedbackCount s)) (λ i, i <=? feedbackCount s) 1
    (λ i st,
       if executive (mget (feedbacks s) i) =? who
       then collect_record (mget (feedbacks s) i) st
       else Ok st)
    st.

Definition requestAggregation (env : Env) (s : State) : res Outcome :=
  _ ← onlyExecutive env s;
  _ ← require (negb (isAggregated (mget (reports s) (sender env))))
        "Already aggregated";
  feedbackCountForExec ← count_loop s (sender env);
  _ ← require (MIN_REVIEWERS <=? feedbackCountForExec) "Insufficient feedback";
  len ← checked_mul feedbackCountForExec 11;
  '(ciphertexts, _) ←
    collect_loop s (sender env) (replicate (N.to_nat len) 0, 0);
  Ok {| state := s;
        effects := [RequestComputation ciphertexts aggregateFeedback_selector;
                    AggregationRequested (sender env)];
        retdata := [] |}.

Definition aggregateFeedback (env : Env) (requestId : uint256)
    (results proof : bytes) (s : State) : res Outcome :=
  _ ← (if checkSignatures requestId results proof then Ok tt
       else Err InvalidSignatures);
  '(avgScores, overallScore) ← abi_decode results;
  let executive := sender env in
  encryptedAvgs ←
    for_loop 5 (λ i, i <? 5) 0
      (λ i encryptedAvgs,
         a ← vget avgScores i;
         vset encryptedAvgs i (asEuint32 a))
      (vreplicate 5 0);
  Ok {| state :=
          set_reports s
            (<[executive := {| encryptedAvgScores := encryptedAvgs;
                               encryptedOverallScore := asEuint32 overallScore;
                               isAggregated := true |}]> (reports s));
        effects := [ReportGenerated executive];
        retdata := [] |}.

Definition requestReportDecryption (env : Env) (s : State) : res Outcome :=
  _ ← onlyExecutive env s;
  _ ← require (isAggregated (mget (reports s) (sender env))) "Report not ready";
  let report := mget (reports s) (sender env) in
  ciphertexts ←
    for_loop 5 (λ i, i <? 5) 0
      (λ i ciphertexts,
         a ← vget (encryptedAvgScores report) i;
         awrite ciphertexts i (toBytes32 a))
      (replicate 6 0);
  ciphertexts ← awrite ciphertexts 5 (toBytes32 (encryptedOverallScore report));
  Ok {| state := s;
        effects := [RequestDecryption ciphertexts decryptReport_selector];
        retdata := [] |}.

Definition decryptReport (env : Env) (requestId : uint256)
    (cleartexts proof : bytes) (s : State) : res Outcome :=
  _ ← (if checkSignatures requestId cleartexts proof then Ok tt
       else Err InvalidSignatures);
  '(avgScores, overallScore) ← abi_decode cleartexts;
  Ok {| state := s; effects := [ReportDecrypted (sender env)]; retdata := [] |}.

Definition getEncryptedCategoryScore (env : Env) (executive : address)
    (category : uint256) (s : State) : res Outcome :=
  _ ← require (category <? 5) "Invalid category";
  h ← vget (encryptedAvgScores (mget (reports s) executive)) category;
  Ok {| state := s; effects := []; retdata := [h] |}.

Definition getEncryptedOverallScore (env : Env) (executive : address)
    (s : State) : res Outcome :=
  _ ← onlyExecutive env s;
  Ok {| state := s; effects := [];
        retdata := [encryptedOverallScore (mget (reports s) executive)] |}.

Definition setFeedbackPeriod (env : Env) (newPeriod : uint256) (s : State)
    : res Outcome :=
  Ok {| state := set_feedbackPeriod s newPeriod; effects := []; retdata := [] |}.

(** The getter the compiler generates for each [public] state variable; the
    getter of a struct leaves its array member out. *)
Definition read (g : Getter) (s : State) : res Outcome :=
  Ok {| state := s; effects := [];
        retdata :=
          match g with
          | get_feedbackCount => [feedbackCount s]
          | get_feedbacks id =>
              let fb := mget (feedbacks s) id in
              [executive fb; reviewer fb; encryptedComments fb; timestamp fb]
          | get_reports a =>
              let r := mget (reports s) a in
              [encryptedOverallScore r; word_of_bool (isAggregated r)]
          | get_isExecutive a => [word_of_bool (mget (isExecutive s) a)]
          | get_isReviewer a => [word_of_bool (mget (isReviewer s) a)]
          | get_MIN_REVIEWERS => [MIN_REVIEWERS]
          | get_feedbackPeriod => [feedbackPeriod s]
          end |}.

End Contract.

(** ** Transactions *)

(** The external entry points of the contract. *)
Inductive Call : Type :=
  | RegisterExecutive
  | ApproveReviewer (reviewer : address)
  | SubmitFeedback (executive : address)
      (encryptedScores encryptedWeights : vec euint32 5)
      (encryptedComments : euint32)
  | RequestAggregation
  | AggregateFeedback (requestId : uint256) (results proof : bytes)
  | RequestReportDecryption
  | DecryptReport (requestId : uint256) (cleartexts proof : bytes)
  | GetEncryptedCategoryScore (executive : address) (category : uint256)
  | GetEncryptedOverallScore (executive : address)
  | SetFeedbackPeriod (newPeriod : uint256)
  | Read (g : Getter).

Section Transactions.
Context `{FHE : FHELib}.

Definition call (env : Env) (c : Call) (s : State) : res Outcome :=
  match c with
  | RegisterExecutive => registerExecutive env s
  | ApproveReviewer r => approveReviewer env r s
  | SubmitFeedback e sc w cm => submitFeedback env e sc w cm s
  | RequestAggregation => requestAggregation env s
  | AggregateFeedback rid results proof =>
      aggregateFeedback env rid results proof s
  | RequestReportDecryption => requestReportDecryption env s
  | DecryptReport rid cleartexts proof =>
      decryptReport env rid cleartexts proof s
  | GetEncryptedCategoryScore e c => getEncryptedCategoryScore env e c s
  | GetEncryptedOverallScore e => getEncryptedOverallScore env e s
  | SetFeedbackPeriod p => setFeedbackPeriod env p s
  | Read g => read g s
  end.

(** A transaction: a call that reverts leaves the storage as it was. *)
Definition exec (env : Env) (c : Call) (s : State) : State :=
  match call env c s with
  | Ok o => state o
  | Err _ => s
  end.

(** A history of transactions, oldest first. *)
Definition run (txs : list (Env * Call)) (s : State) : State :=
  foldl (λ s tx, exec tx.1 tx.2 s) s txs.

End Transactions.

(** ** The records of one executive, as the specification words them *)

(** The record ids [1..n] in increasing order. *)
Definition ids (n : uint256) : list uint256 :=
  map N.of_nat (seq 1 (N.to_nat n)).

(** The ids of the stored records that name [who], in record-id order. *)
Definition records_of (s : State) (who : address) : list uint256 :=
  filter (λ i, executive (mget (feedbacks s) i) = who) (ids (feedbackCount s)).

Definition feedbackCountOf (s : State) (who : address) : uint256 :=
  N.of_nat (length (records_of s who)).

Section Handles.
Context `{FHE : FHELib}.

(** The eleven handles of one record: the five (score, weight) pairs in
    category order, then the comment. *)
Definition record_handles (fb : EncryptedFeedback) : list bytes32 :=
  concat (map (λ c, [toBytes32 (encryptedScore c);
                     toBytes32 (encryptedWeight c)])
              (vec_to_list (categories fb)))
  ++ [toBytes32 (encryptedComments fb)].

Definition executive_handles (s : State) (who : address) : list bytes32 :=
  concat (map (λ i, record_handles (mget (feedbacks s) i)) (records_of s who)).

(** The six handles of a report: the category averages, then the overall. *)
Definition report_handles (r : LeadershipReport) : list bytes32 :=
  map toBytes32 (vec_to_list (encryptedAvgScores r))
  ++ [toBytes32 (encryptedOverallScore r)].

End Handles.

(** ** The coprocessor's side

    The contract keeps no table of the requests it issued: the id returned by
    [FHE.requestComputation] or [FHE.requestDecryption] is dropped. To speak
    of a request that is still pending, the requests are tracked where they
    live, at the coprocessor: every request a successful call issued gets the
    next id and stays pending until a callback carrying that id is accepted. *)

Record Request : Type := {
  request_id : uint256;
  requester : address;
  callback : Selector;
  inputs : list bytes32;
}.

Record World : Type := {
  storage : State;
  nextRequestId : uint256;
  pending : list Request;
}.

#[global] Instance Selector_eq_dec : EqDecision Selector.
Proof. solve_decision. Defined.

Definition issue (who : address) (acc : uint256 * list Request) (e : Effect)
    : uint256 * list Request :=
  match e with
  | RequestComputation cts sel | RequestDecryption cts sel =>
      (acc.1 + 1,
       acc.2 ++ [{| request_id := acc.1; requester := who; callback := sel;
                    inputs := cts |}])
  | _ => acc
  end.

(** The request a successful call answers, if it is a callback. *)
Definition answered (c : Call) : option (uint256 * Selector) :=
  match c with
  | AggregateFeedback rid _ _ => Some (rid, aggregateFeedback_selector)
  | DecryptReport rid _ _ => Some (rid, decryptReport_selector)
  | _ => None
  end.

Definition complete (c : Call) (reqs : list Request) : list Request :=
  match answered c with
  | Some (rid, sel) =>
      filter (λ r, ¬ (request_id r = rid ∧ callback r = sel)) reqs
  | None => reqs
  end.

Section Worlds.
Context `{FHE : FHELib}.

Definition world_step (env : Env) (c : Call) (w : World) : World :=
  match call env c (storage w) with
  | Ok o =>
      let '(next, reqs) :=
        foldl (issue (sender env)) (nextRequestId w, complete c (pending w))
              (effects o) in
      {| storage := state o; nextRequestId := next; pending := reqs |}
  | Err _ => w
  end.

Definition world_run (txs : list (Env * Call)) (w : World) : World :=
  foldl (λ w tx, world_step tx.1 tx.2 w) w txs.

End Worlds.

Definition genesis : World :=
  {| storage := initial; nextRequestId := 0; pending := [] |}.

(** An aggregation request of [who] is still pending. *)
Definition pendingAggregation (w : World) (who : address) : bool :=
  bool_decide (Exists (λ r, requester r = who
                             ∧ callback r = aggregateFeedback_selector)
                      (pending w)).

(** The executive who issued the pending request [rid], if there is one. *)
Definition issuer (w : World) (rid : uint256) (sel : Selector) : option address :=
  (λ p, requester p.2) <$>
    list_find (λ r, request_id r = rid ∧ callback r = sel) (pending w).

(** ** Closed forms used by the proofs *)

(** A loop over a list, the shape the [for] loops are reduced to. *)
Fixpoint fold_res {A B} (f : B → A → res A) (l : list B) (a : A) : res A :=
  match l with
  | [] => Ok a
  | x :: l' => a' ← f x a; fold_res f l' a'
  end.

(** The indices [i, i+1, .., hi]. *)
Definition ids_from (i hi : uint256) : list uint256 :=
  map N.of_nat (seq (N.to_nat i) (N.to_nat (hi + 1 - i))).

(** [ciphertexts[index++] = x] for every [x] of [xs] in turn. *)
Definition write_all (xs : list bytes32) (st : list bytes32 * uint256)
    : res (list bytes32 * uint256) :=
  fold_res (λ x '(ciphertexts, index),
              ciphertexts ← awrite ciphertexts index x;
              index ← checked_succ index;
              Ok (ciphertexts, index)) xs st.

Section Outcomes.
Context `{FHE : FHELib}.

(** What a successful [requestAggregation] by [who] yields. *)
Definition aggregation_request (s : State) (who : address) : Outcome :=
  {| state := s;
     effects := [RequestComputation (executive_handles s who)
                   aggregateFeedback_selector;
                 AggregationRequested who];
     retdata := [] |}.

(** The record a submission stores. *)
Definition new_record (env : Env) (executive : address)
    (encryptedScores encryptedWeights : vec euint32 5)
    (encryptedComments : euint32) : EncryptedFeedback :=
  {| executive := executive; reviewer := sender env;
     categories :=
       vzip_with Build_FeedbackCategory encryptedScores encryptedWeights;
     encryptedComments := encryptedComments; timestamp := now env |}.

(** What a successful [submitFeedback] yields. *)
Definition submitted (env : Env) (executive : address)
    (encryptedScores encryptedWeights : vec euint32 5)
    (encryptedComments : euint32) (s : State) : Outcome :=
  let newId := feedbackCount s + 1 in
  {| state := set_feedbacks s newId
                (<[newId := new_record env executive encryptedScores
                              encryptedWeights encryptedComments]>
                   (feedbacks s));
     effects := [FeedbackSubmitted newId executive];
     retdata := [] |}.

(** The report an accepted aggregation callback stores. *)
Definition decoded_report (avgScores : vec uint32 5) (overallScore : uint32)
    : LeadershipReport :=
  {| encryptedAvgScores := vmap asEuint32 avgScores;
     encryptedOverallScore := asEuint32 overallScore;
     isAggregated := true |}.

(** What an accepted [aggregateFeedback] yields. *)
Definition generated (env : Env) (avgScores : vec uint32 5)
    (overallScore : uint32) (s : State) : Outcome :=
  {| state := set_reports s (<[sender env := decoded_report avgScores overallScore]>
                               (reports s));
     effects := [ReportGenerated (sender env)];
     retdata := [] |}.

End Outcomes.

(** ** A deterministic coprocessor stub and one run of the protocol *)

#[global] Instance byte_eq_dec : EqDecision byte := Byte.byte_eq_dec.

(** The proof of a payload is the request id followed by the payload; a
    handle is its 32-byte word, and the handle of a trivially encrypted value
    is the value tagged with bit 32. *)
Definition stub_proof (requestId : uint256) (payload : bytes) : bytes :=
  encode_word requestId ++ payload.

Definition stubFHE : FHELib :=
  {| toBytes32 := λ h, h;
     asEuint32 := λ v, 2 ^ 32 + v;
     checkSignatures := λ requestId payload proof,
       bool_decide (proof = stub_proof requestId payload) |}.

Definition alice : address := 7.        (* the executive *)
Definition relayer : address := 99.     (* the account that delivers callbacks *)
Definition admin : address := 1.
Definition reviewers : list address := [21; 22; 23; 24; 25].

Definition by_ (a : address) : Env := {| sender := a; now := 1700000000 |}.

(** Reviewer [r] submits handles derived from [r] for [alice]. *)
Definition feedback_of (r : address) : Call :=
  SubmitFeedback alice
    [# 100 * r; 100 * r + 1; 100 * r + 2; 100 * r + 3; 100 * r + 4]
    [# 100 * r + 10; 100 * r + 11; 100 * r + 12; 100 * r + 13; 100 * r + 14]
    (100 * r + 20).

Definition enrolment : list (Env * Call) :=
  (by_ alice, RegisterExecutive)
  :: map (λ r, (by_ admin, ApproveReviewer r)) reviewers.

(** Four submissions: one short of the threshold. *)
Definition w_four : World :=
  world_run (FHE := stubFHE)
    (enrolment ++ map (λ r, (by_ r, feedback_of r)) (take 4 reviewers)) genesis.

(** The fifth submission reaches it. *)
Definition w_five : World :=
  world_step (FHE := stubFHE) (by_ 25) (feedback_of 25) w_four.

(** [alice] has requested the aggregation; request 0 is pending. *)
Definition w_requested : World :=
  world_step (FHE := stubFHE) (by_ alice) RequestAggregation w_five.

Definition payload_a : bytes := abi_encode [# 80; 70; 90; 60; 100] 80.
Definition payload_b : bytes := abi_encode [# 10; 10; 10; 10; 10] 10.

(** The callback for request 0 was delivered from [alice]'s own account. *)
Definition w_done : World :=
  world_step (FHE := stubFHE) (by_ alice)
    (AggregateFeedback 0 payload_a (stub_proof 0 payload_a)) w_requested.

(** The relayer delivered it instead. *)
Definition w_relayed : World :=
  world_step (FHE := stubFHE) (by_ relayer)
    (AggregateFeedback 0 payload_a (stub_proof 0 payload_a)) w_requested.

(** ** Histories

    What a transaction of a history does, and the two shapes every storage
    reached from [initial] has. *)

(** Does the transaction register [a] as an executive? *)
Definition registers (a : address) (tx : Env * Call) : bool :=
  match tx.2 with
  | RegisterExecutive => sender tx.1 =? a
  | _ => false
  end.

(** Does it approve [a] as a reviewer? *)
Definition approves (a : address) (tx : Env * Call) : bool :=
  match tx.2 with
  | ApproveReviewer r => r =? a
  | _ => false
  end.

(** Is it an aggregation callback invoked by [a]? *)
Definition delivers_as (a : address) (tx : Env * Call) : bool :=
  match tx.2 with
  | AggregateFeedback _ _ _ => sender tx.1 =? a
  | _ => false
  end.

(** The log holds exactly the ids [1..feedbackCount], and every record names
    a registered executive and an approved reviewer. *)
Definition log_wf (s : State) : Prop :=
  feedbackCount s ≤ MAX_UINT256
  ∧ ∀ i, match feedbacks s !! i with
         | Some fb => 1 ≤ i ≤ feedbackCount s
                      ∧ mget (isExecutive s) (executive fb) = true
                      ∧ mget (isReviewer s) (reviewer fb) = true
         | None => ¬ (1 ≤ i ≤ feedbackCount s)
         end.

(** Every report that was written is aggregated. *)
Definition reports_wf (s : State) : Prop :=
  ∀ a r, reports s !! a = Some r → isAggregated r = true.

(** One reviewer submitting one record after the other for [e]. *)
Definition submissions (env : Env) (e : address)
    (subs : list (vec euint32 5 * vec euint32 5 * euint32)) : list (Env * Call) :=
  map (λ sub, (env, SubmitFeedback e sub.1.1 sub.1.2 sub.2)) subs.

(** An outcome with the feedback period of its storage replaced. *)
Definition with_period (p : uint256) (r : res Outcome) : res Outcome :=
  match r with
  | Ok o => Ok {| state := set_feedbackPeriod (state o) p;
                  effects := effects o; retdata := retdata o |}
  | Err f => Err f
  end.

(** The enrolment and the five submissions of the protocol run. *)
Definition history_five : list (Env * Call) :=
  enrolment ++ map (λ r, (by_ r, feedback_of r)) reviewers.

(** * The frontend: [App.tsx]

    The pure parts of the React component: the three sentiment statistics,
    the indicator of a feedback card and the search filter on the state
    declared [FeedbackRecord[]], and, in [Runtime], the list [loadFeedbacks]
    builds from what the storage contract returns, on the untyped values
    [JSON.parse] yields. The wallet, the transport and [JSON.parse] stay
    outside: what they return is a parameter. *)

Module App.

(** A JavaScript string: its UTF-16 code units. *)
Abbreviation jsstring := (list N) (only parsing).

Definition units (s : string) : jsstring :=
  map N_of_ascii (list_ascii_of_string s).

(** A JavaScript number. A finite double is the rational it denotes; the
    comparisons below are exact on doubles. *)
Inductive number : Type :=
  | Finite (q : Q)
  | Infinity
  | NegInfinity
  | NaN.

(** [x < y] and [x <= y]; every comparison with [NaN] is false. *)
Definition lt (x y : number) : bool :=
  match x, y with
  | NaN, _ | _, NaN => false
  | Finite a, Finite b => negb (Qle_bool b a)
  | NegInfinity, NegInfinity => false
  | NegInfinity, _ => true
  | Infinity, _ => false
  | Finite _, Infinity => true
  | Finite _, NegInfinity => false
  end.

Definition le (x y : number) : bool :=
  match x, y with
  | NaN, _ | _, NaN => false
  | Finite a, Finite b => Qle_bool a b
  | NegInfinity, _ => true
  | _, Infinity => true
  | Infinity, _ => false
  | Finite _, NegInfinity => false
  end.

Definition gt (x y : number) : bool := lt y x.
Definition ge (x y : number) : bool := le y x.

Definition is_NaN (x : number) : bool :=
  match x with NaN => true | _ => false end.

(** Truthiness of a number: [0], [-0] and [NaN] are falsy. *)
Definition truthy (x : number) : bool :=
  match x with
  | NaN => false
  | Finite q => negb (Qeq_bool q 0)
  | _ => true
  end.

Record FeedbackRecord : Type := {
  id : jsstring;
  encryptedData : jsstring;
  timestamp : number;
  from : jsstring;
  feedbackType : jsstring;
  sentiment : number;
}.

Definition half : number := Finite (1 # 2).
Definition minus_half : number := Finite (- 1 # 2).

Definition positiveCount (feedbacks : list FeedbackRecord) : nat :=
  length (List.filter (λ f, gt (sentiment f) half) feedbacks).

Definition neutralCount (feedbacks : list FeedbackRecord) : nat :=
  length (List.filter (λ f, le (sentiment f) half && ge (sentiment f) minus_half)
            feedbacks).

Definition negativeCount (feedbacks : list FeedbackRecord) : nat :=
  length (List.filter (λ f, lt (sentiment f) minus_half) feedbacks).

(** The class of the sentiment indicator on a feedback card. *)
Inductive Indicator : Type := positive | negative | neutral.

#[global] Instance Indicator_eq_dec : EqDecision Indicator.
Proof. solve_decision. Defined.

Definition indicator (feedback : FeedbackRecord) : Indicator :=
  if gt (sentiment feedback) half then positive
  else if lt (sentiment feedback) minus_half then negative
  else neutral.

(** [s.startsWith(t)] and [s.includes(t)] on code units. *)
Fixpoint startsWith (s t : jsstring) {struct t} : bool :=
  match t, s with
  | [], _ => true
  | _ :: _, [] => false
  | b :: t', a :: s' => (a =? b) && startsWith s' t'
  end.

Fixpoint includes (s t : jsstring) : bool :=
  startsWith s t
  || match s with
     | [] => false
     | _ :: s' => includes s' t
     end.

Section Search.

(** [String.prototype.toLowerCase], which follows the Unicode case tables. *)
Context (toLowerCase : jsstring → jsstring).

Definition filteredFeedbacks (feedbacks : list FeedbackRecord)
    (searchTerm : jsstring) : list FeedbackRecord :=
  List.filter
    (λ feedback,
       includes (toLowerCase (feedbackType feedback)) (toLowerCase searchTerm)
       || includes (toLowerCase (from feedback)) (toLowerCase searchTerm))
    feedbacks.

End Search.

(** ** The records at run time

    [loadFeedbacks] builds its records from what [JSON.parse] returns, and
    the type annotations are erased before the code runs: a stored field can
    hold any JSON value. The definitions below follow the code on those
    values; the conversions are the ones the operators [||], [>], [-] and a
    template literal apply to them. *)
Module Runtime.

(** A value as [JSON.parse] can return it, and [undefined] for a property
    that is absent. An object is the list of its own properties, each name
    once. *)
#[local] Unset Elimination Schemes.
Inductive value : Type :=
  | Undefined
  | Null
  | Bool (b : bool)
  | Num (x : number)
  | Str (s : jsstring)
  | Arr (items : list value)
  | Obj (props : list (jsstring * value)).
#[local] Set Elimination Schemes.

(** What the code calls and this file does not define: a read of the storage
    contract ([None] when it rejects), [JSON.parse] after [toUtf8String]
    ([None] when either throws) and the two conversions between numbers and
    strings. *)
Class Host : Type := {
  getData : jsstring → option (list byte);
  JSON_parse : list byte → option value;
  NumberToString : number → jsstring;
  StringToNumber : jsstring → number;
}.




Definition ToBoolean (v : value) : bool :=
  match v with
  | Undefined | Null => false
  | Bool b => b
  | Num x => truthy x
  | Str s => match s with [] => false | _ :: _ => true end
  | Arr _ | Obj _ => true
  end.


(** [v || 0]. *)
Definition or_zero (v : value) : value :=
  if ToBoolean v then v else Num (Finite 0).

Definition is_finite (x : number) : bool :=
  match x with Finite _ => true | _ => false end.

(** [items.join(",")]. *)
Fixpoint join (items : list jsstring) : jsstring :=
  match items with
  | [] => []
  | [s] => s
  | s :: rest => s ++ units "," ++ join rest
  end.

Section Conversions.
Context `{H : Host}.

Fixpoint ToString (v : value) : jsstring :=
  match v with
  | Undefined => units "undefined"
  | Null => units "null"
  | Bool true => units "true"
  | Bool false => units "false"
  | Num x => NumberToString x
  | Str s => s
  | Arr items =>
      join (List.map (λ item, match item with
                              | Undefined | Null => []
                              | _ => ToString item
                              end) items)
  | Obj _ => units "[object Object]"
  end.

Definition ToNumber (v : value) : number :=
  match v with
  | Undefined => NaN
  | Null => Finite 0
  | Bool true => Finite 1
  | Bool false => Finite 0
  | Num x => x
  | Str s => StringToNumber s
  | Arr _ | Obj _ => StringToNumber (ToString v)
  end.

End Conversions.

(** The object [loadFeedbacks] pushes. *)
Record FeedbackRecord : Type := {
  id : value;
  encryptedData : value;
  timestamp : value;
  from : value;
  feedbackType : value;
  sentiment : value;
}.

(** The sign of the double [x - y], or that it is [NaN]. *)
Inductive Sign : Type := Negative | Zero | Positive | NotANumber.

#[global] Instance Sign_eq_dec : EqDecision Sign.
Proof. solve_decision. Defined.








                        (* called with [list] in an order the engine chooses *)


Section Chain.
Context `{H : Host}.






(** The statistics, on the records as they are. *)
Definition positiveCount (feedbacks : list FeedbackRecord) : nat :=
  length (List.filter (λ f, gt (ToNumber (sentiment f)) half) feedbacks).

Definition neutralCount (feedbacks : list FeedbackRecord) : nat :=
  length (List.filter (λ f, le (ToNumber (sentiment f)) half
                            && ge (ToNumber (sentiment f)) minus_half)
            feedbacks).

Definition negativeCount (feedbacks : list FeedbackRecord) : nat :=
  length (List.filter (λ f, lt (ToNumber (sentiment f)) minus_half) feedbacks).

End Chain.

(** A record whose fields have the declared types, as a record at run
    time. *)
Definition declared (f : App.FeedbackRecord) : FeedbackRecord :=
  {| id := Str (App.id f);
     encryptedData := Str (App.encryptedData f);
     timestamp := Num (App.timestamp f);
     from := Str (App.from f);
     feedbackType := Str (App.feedbackType f);
     sentiment := Num (App.sentiment f) |}.

(** A stored key index and the records under its keys, for the instances
    below: the record of ["b"] is empty, the one of ["d"] does not parse
    and the one of ["e"] is [null]. *)
Definition demo_getData (key : jsstring) : option (list byte) :=
  if bool_decide (key = units "feedback_keys") then Some [x01]
  else if bool_decide (key = units "feedback_a") then Some [x0a]
  else if bool_decide (key = units "feedback_b") then Some []
  else if bool_decide (key = units "feedback_c") then Some [x0c]
  else if bool_decide (key = units "feedback_d") then Some [xff]
  else if bool_decide (key = units "feedback_e") then Some [x0e]
  else None.

Definition demo_a : value :=
  Obj [(units "data", Str (units "FHE-x"));
       (units "timestamp", Num (Finite 100));
       (units "from", Str (units "0xA1"));
       (units "feedbackType", Str (units "Strategy"));
       (units "sentiment", Num (Finite (9 # 10)))].

Definition demo_c : value :=
  Obj [(units "data", Str (units "FHE-y"));
       (units "timestamp", Num (Finite 200));
       (units "from", Str (units "0xB2"));
       (units "feedbackType", Str (units "Leadership"))].

Definition demo_JSON_parse (b : list byte) : option value :=
  match b with
  | [x01] => Some (Arr [Str (units "a"); Str (units "b"); Str (units "c");
                        Str (units "d"); Str (units "e")])
  | [x0a] => Some demo_a
  | [x0c] => Some demo_c
  | [x0e] => Some Null
  | _ => None
  end.

(** No number is printed and no string is read as a number in the
    instances. *)
Definition demo_host : Host :=
  {| getData := demo_getData;
     JSON_parse := demo_JSON_parse;
     NumberToString := λ _, [];
     StringToNumber := λ _, NaN |}.

End Runtime.

End App.

Arguments awrite : simpl never.
Arguments checked_succ : simpl never.

(** * Properties *)

(** ** Checked arithmetic and loops *)
Lemma MAX_UINT256_pos : 0 < MAX_UINT256.
Proof. reflexivity. Qed.

Lemma checked_succ_lt x : x < MAX_UINT256 → checked_succ x = Ok (x + 1).
Proof. intros H. unfold checked_succ. by apply N.ltb_lt in H as ->. Qed.

Lemma checked_succ_Ok x y : checked_succ x = Ok y → x < MAX_UINT256 ∧ y = x + 1.
Proof.
  unfold checked_succ. destruct (N.ltb_spec x MAX_UINT256); [|done].
  intros [= <-]. done.
Qed.

Lemma for_loop_unfold {A} fuel cond i (body : N → A → res A) a :
  for_loop (S fuel) cond i body a =
  if cond i then a' ← body i a; i' ← checked_succ i; for_loop fuel cond i' body a'
  else Ok a.
Proof. reflexivity. Qed.

Lemma for_loop_5 {A} (body : N → A → res A) a :
  for_loop 5 (λ j, j <? 5) 0 body a =
  (a ← body 0 a; a ← body 1 a; a ← body 2 a; a ← body 3 a; body 4 a).
Proof.
  rewrite for_loop_unfold. change (0 <? 5) with true. cbv iota.
  destruct (body 0 a) as [a1|]; [|done]. cbn [mbind res_bind].
  rewrite checked_succ_lt by done. cbn [mbind res_bind].
  rewrite for_loop_unfold. change (0 + 1 <? 5) with true. cbv iota. change (0+1) with 1.
  destruct (body 1 a1) as [a2|]; [|done]. cbn [mbind res_bind].
  rewrite checked_succ_lt by done. cbn [mbind res_bind].
  rewrite for_loop_unfold. change (1 + 1 <? 5) with true. cbv iota. change (1+1) with 2.
  destruct (body 2 a2) as [a3|]; [|done]. cbn [mbind res_bind].
  rewrite checked_succ_lt by done. cbn [mbind res_bind].
  rewrite for_loop_unfold. change (2 + 1 <? 5) with true. cbv iota. change (2+1) with 3.
  destruct (body 3 a3) as [a4|]; [|done]. cbn [mbind res_bind].
  rewrite checked_succ_lt by done. cbn [mbind res_bind].
  rewrite for_loop_unfold. change (3 + 1 <? 5) with true. cbv iota. change (3+1) with 4.
  destruct (body 4 a4) as [a5|]; [|done]. cbn [mbind res_bind].
  rewrite checked_succ_lt by done. cbn [mbind res_bind].
  reflexivity.
Qed.

Lemma for_loop_upto {A} (body : N → A → res A) hi :
  hi < MAX_UINT256 →
  ∀ fuel i a, fuel = N.to_nat (hi + 1 - i) →
  for_loop fuel (λ i, i <=? hi) i body a = fold_res body (ids_from i hi) a.
Proof.
  intros Hhi. induction fuel as [|fuel IH]; intros i a Hf.
  - unfold ids_from. rewrite <- Hf. simpl.
    destruct (N.leb_spec i hi); [lia|done].
  - rewrite for_loop_unfold. unfold ids_from. rewrite <- Hf.
    destruct (N.leb_spec i hi); [|lia].
    simpl. rewrite N2Nat.id.
    destruct (body i a) as [a'|]; [|done]. cbn [mbind res_bind].
    rewrite checked_succ_lt by lia. cbn [mbind res_bind].
    rewrite IH by lia. unfold ids_from.
    replace (N.to_nat (hi + 1 - (i + 1))) with fuel by lia.
    replace (N.to_nat (i + 1)) with (S (N.to_nat i)) by lia. done.
Qed.

Lemma for_loop_upto_Ok {A} (body : N → A → res A) hi :
  ∀ fuel i a r, for_loop fuel (λ i, i <=? hi) i body a = Ok r → i ≤ hi →
  hi < MAX_UINT256.
Proof.
  induction fuel as [|fuel IH]; intros i a r.
  - simpl. destruct (N.leb_spec i hi); [done|lia].
  - rewrite for_loop_unfold. destruct (N.leb_spec i hi); [|lia].
    destruct (body i a) as [a'|]; [|done]. cbn [mbind res_bind].
    destruct (checked_succ i) as [i'|] eqn:Hs; [|done]. cbn [mbind res_bind].
    apply checked_succ_Ok in Hs as [Hi ->]. intros Hr _.
    destruct (N.le_gt_cases (i + 1) hi) as [Hle|Hgt].
    + by eapply IH.
    + lia.
Qed.

Lemma ids_from_1 n : ids_from 1 n = ids n.
Proof. unfold ids_from, ids. do 2 f_equal. lia. Qed.

(** ** The collection loop writes the handles in order *)

Lemma awrite_middle {A} (pre post : list A) y x i :
  i = N.of_nat (length pre) →
  awrite (pre ++ y :: post) i x = Ok (pre ++ x :: post).
Proof.
  intros ->. unfold awrite. rewrite Nat2N.id, length_app. simpl.
  destruct (Nat.ltb_spec (length pre) (length pre + S (length post))); [|lia].
  f_equal. by rewrite insert_app_r_alt, Nat.sub_diag by lia.
Qed.

Lemma write_all_spec xs : ∀ pre mid post,
  length mid = length xs →
  N.of_nat (length pre + length xs) ≤ MAX_UINT256 →
  write_all xs (pre ++ mid ++ post, N.of_nat (length pre)) =
  Ok (pre ++ xs ++ post, N.of_nat (length pre + length xs)).
Proof.
  induction xs as [|x xs IH]; intros pre mid post Hlen Hmax.
  - destruct mid; [|done]. simpl. do 3 f_equal. lia.
  - destruct mid as [|y mid]; [done|]. simpl in *.
    unfold write_all. simpl.
    rewrite (awrite_middle pre (mid ++ post) y x) by done. simpl.
    rewrite checked_succ_lt by lia. simpl.
    specialize (IH (pre ++ [x]) mid post).
    rewrite length_app in IH. simpl in IH.
    replace (N.of_nat (length pre) + 1) with (N.of_nat (length pre + 1)) by lia.
    rewrite <- !(assoc_L (++)) in IH. simpl in IH. unfold write_all in IH.
    rewrite IH by lia. do 3 f_equal. lia.
Qed.

Section Loops.
Context `{FHE : FHELib}.


Lemma collect_record_write_all fb st :
  collect_record fb st = write_all (record_handles fb) st.
Proof.
  unfold collect_record. rewrite for_loop_5.
  destruct fb as [e r cats cm ts]. unfold record_handles. cbn [categories encryptedComments].
  inv_vec cats => c0 c1 c2 c3 c4.
  destruct st as [arr idx].
  unfold write_all. simpl.
  repeat match goal with
         | |- context [awrite ?a ?i ?x] =>
             destruct (awrite a i x); simpl; [|reflexivity]
         | |- context [checked_succ ?i] =>
             destruct (checked_succ i); simpl; [|reflexivity]
         end.
  reflexivity.
Qed.

Lemma length_record_handles fb : length (record_handles fb) = 11%nat.
Proof.
  destruct fb as [e r cats cm ts]. unfold record_handles. simpl.
  by inv_vec cats => c0 c1 c2 c3 c4.
Qed.

Lemma count_fold (s : State) who l : ∀ c,
  c + N.of_nat (length l) ≤ MAX_UINT256 →
  fold_res (λ i feedbackCountForExec,
              if executive (mget (feedbacks s) i) =? who
              then checked_succ feedbackCountForExec
              else Ok feedbackCountForExec) l c
  = Ok (c + N.of_nat (length (filter (λ i, executive (mget (feedbacks s) i) = who) l))).
Proof.
  induction l as [|i l IH]; intros c Hc; simpl in *.
  - f_equal. lia.
  - destruct (N.eqb_spec (executive (mget (feedbacks s) i)) who) as [Heq|Hne].
    + rewrite checked_succ_lt by lia. simpl. rewrite IH by lia.
      rewrite filter_cons_True by done. simpl. f_equal. lia.
    + simpl. rewrite IH by lia. by rewrite filter_cons_False.
Qed.

Lemma collect_fold (s : State) who l : ∀ pre k,
  let hs := concat (map (λ i, record_handles (mget (feedbacks s) i))
              (filter (λ i, executive (mget (feedbacks s) i) = who) l)) in
  (length hs ≤ k)%nat →
  N.of_nat (length pre + length hs) ≤ MAX_UINT256 →
  fold_res (λ i st,
              if executive (mget (feedbacks s) i) =? who
              then collect_record (mget (feedbacks s) i) st
              else Ok st) l (pre ++ replicate k 0, N.of_nat (length pre))
  = Ok (pre ++ hs ++ replicate (k - length hs) 0,
        N.of_nat (length pre + length hs)).
Proof.
  induction l as [|i l IH]; intros pre k hs Hk Hmax; subst hs; simpl in *.
  - rewrite Nat.sub_0_r, Nat.add_0_r. done.
  - destruct (N.eqb_spec (executive (mget (feedbacks s) i)) who) as [Heq|Hne].
    + rewrite filter_cons_True in * by done. simpl in *.
      rewrite length_app, length_record_handles in *.
      set (hs := concat _) in *.
      rewrite collect_record_write_all.
      replace k with (11 + (k - 11))%nat at 1 by lia.
      rewrite replicate_add.
      rewrite (write_all_spec _ pre (replicate 11 0)).
      2:{ by rewrite length_replicate, length_record_handles. }
      2:{ rewrite length_record_handles. lia. }
      simpl. rewrite length_record_handles.
      specialize (IH (pre ++ record_handles (mget (feedbacks s) i)) (k - 11)%nat).
      simpl in IH. fold hs in IH.
      rewrite length_app, length_record_handles in IH.
      rewrite <- (assoc_L (++)) in IH. rewrite IH by lia.
      rewrite <- !(assoc_L (++)).
      f_equal. f_equal; [|lia]. do 4 f_equal. lia.
    + rewrite filter_cons_False in * by done. simpl. by apply IH.
Qed.
Lemma length_ids n : length (ids n) = N.to_nat n.
Proof. unfold ids. by rewrite length_map, length_seq. Qed.

Lemma feedbackCountOf_le s who : feedbackCountOf s who ≤ feedbackCount s.
Proof.
  unfold feedbackCountOf, records_of.
  pose proof (length_filter (λ i, executive (mget (feedbacks s) i) = who)
                (ids (feedbackCount s))) as Hl.
  rewrite length_ids in Hl. lia.
Qed.

Lemma length_executive_handles s who :
  length (executive_handles s who) = (11 * length (records_of s who))%nat.
Proof.
  unfold executive_handles. induction (records_of s who) as [|i l IH]; [done|].
  simpl. rewrite length_app, length_record_handles, IH. lia.
Qed.

Lemma count_loop_bounded s who :
  feedbackCount s < MAX_UINT256 →
  count_loop s who = Ok (feedbackCountOf s who).
Proof.
  intros Hlt. unfold count_loop.
  rewrite for_loop_upto by (done || lia).
  rewrite ids_from_1, count_fold by (rewrite length_ids; lia). done.
Qed.

Lemma count_loop_Ok s who c :
  count_loop s who = Ok c →
  c = feedbackCountOf s who ∧ (feedbackCount s = 0 ∨ feedbackCount s < MAX_UINT256).
Proof.
  intros Hc. destruct (N.eq_dec (feedbackCount s) 0) as [H0|Hpos].
  - split; [|by left]. unfold count_loop in Hc.
    unfold feedbackCountOf, records_of. rewrite H0 in *.
    change (Ok 0 = Ok c) in Hc. by injection Hc as <-.
  - assert (feedbackCount s < MAX_UINT256) as Hlt.
    { unfold count_loop in Hc. eapply for_loop_upto_Ok; [exact Hc|lia]. }
    split; [|by right]. rewrite count_loop_bounded in Hc by done. congruence.
Qed.

Lemma collect_loop_spec s who :
  feedbackCount s < MAX_UINT256 →
  11 * feedbackCountOf s who ≤ MAX_UINT256 →
  collect_loop s who (replicate (N.to_nat (feedbackCountOf s who * 11)) 0, 0)
  = Ok (executive_handles s who, feedbackCountOf s who * 11).
Proof.
  intros Hlt Hmul. unfold collect_loop.
  rewrite for_loop_upto by (done || lia). rewrite ids_from_1.
  pose proof (collect_fold s who (ids (feedbackCount s)) []
                (N.to_nat (feedbackCountOf s who * 11))) as Hf.
  simpl in Hf. fold (records_of s who) in Hf. fold (executive_handles s who) in Hf.
  rewrite length_executive_handles in Hf. unfold feedbackCountOf in *.
  change (N.of_nat 0) with 0 in Hf. rewrite Hf by lia.
  replace (_ - _)%nat with 0%nat by lia. simpl. rewrite app_nil_r.
  do 2 f_equal. lia.
Qed.

Lemma checked_mul_Ok x y z : checked_mul x y = Ok z → z = x * y ∧ x * y ≤ MAX_UINT256.
Proof.
  unfold checked_mul. destruct (N.leb_spec (x * y) MAX_UINT256); [|done].
  by intros [= <-].
Qed.

Lemma checked_mul_le x y : x * y ≤ MAX_UINT256 → checked_mul x y = Ok (x * y).
Proof. intros H. unfold checked_mul. by apply N.leb_le in H as ->. Qed.

Lemma requestAggregation_Ok env s o :
  requestAggregation env s = Ok o →
  mget (isExecutive s) (sender env) = true
  ∧ isAggregated (mget (reports s) (sender env)) = false
  ∧ MIN_REVIEWERS ≤ feedbackCountOf s (sender env)
  ∧ o = aggregation_request s (sender env).
Proof.
  unfold requestAggregation, onlyExecutive, require.
  destruct (mget (isExecutive s) (sender env)); [|done]. simpl.
  destruct (isAggregated (mget (reports s) (sender env))); [done|]. simpl.
  destruct (count_loop s (sender env)) as [c|] eqn:Hc; [|done]. simpl.
  apply count_loop_Ok in Hc as [-> Hfc].
  destruct (N.leb_spec MIN_REVIEWERS (feedbackCountOf s (sender env))) as [Hmin|]; [|done].
  simpl.
  destruct (checked_mul _ 11) as [len|] eqn:Hmul; [|done]. simpl.
  apply checked_mul_Ok in Hmul as [-> Hmul].
  assert (feedbackCount s < MAX_UINT256) as Hlt.
  { destruct Hfc as [H0|]; [|done].
    pose proof (feedbackCountOf_le s (sender env)). unfold MIN_REVIEWERS in *. lia. }
  rewrite collect_loop_spec by (done || lia). simpl.
  intros [= <-]. done.
Qed.

Lemma requestAggregation_eq env s :
  11 * feedbackCount s ≤ MAX_UINT256 →
  requestAggregation env s =
    if negb (mget (isExecutive s) (sender env)) then Err (Revert "Not executive")
    else if isAggregated (mget (reports s) (sender env))
         then Err (Revert "Already aggregated")
    else if feedbackCountOf s (sender env) <? MIN_REVIEWERS
         then Err (Revert "Insufficient feedback")
    else Ok (aggregation_request s (sender env)).
Proof.
  intros Hr.
  assert (feedbackCount s < MAX_UINT256) as Hlt.
  { pose proof MAX_UINT256_pos. lia. }
  pose proof (feedbackCountOf_le s (sender env)) as Hle.
  unfold requestAggregation, onlyExecutive, require.
  destruct (mget (isExecutive s) (sender env)); [|done]. simpl.
  destruct (isAggregated (mget (reports s) (sender env))); [done|]. simpl.
  rewrite count_loop_bounded by done. simpl.
  rewrite N.leb_antisym.
  destruct (feedbackCountOf s (sender env) <? MIN_REVIEWERS); [done|]. simpl.
  rewrite checked_mul_le by lia. simpl.
  rewrite collect_loop_spec by (done || lia). done.
Qed.
End Loops.

(** ** Closed forms of the entry points *)

Section ClosedForms.
Context `{FHE : FHELib}.

Lemma submitFeedback_eq env executive sc w cm s :
  submitFeedback env executive sc w cm s =
    if negb (mget (isReviewer s) (sender env)) then Err (Revert "Not reviewer")
    else if negb (mget (isExecutive s) executive) then Err (Revert "Invalid executive")
    else if feedbackCount s <? MAX_UINT256 then Ok (submitted env executive sc w cm s)
    else Err (Panic 0x11).
Proof.
  unfold submitFeedback, onlyReviewer, require.
  destruct (mget (isReviewer s) (sender env)); [|done]. cbn [mbind res_bind].
  destruct (mget (isExecutive s) executive); [|done]. cbn [mbind res_bind].
  unfold checked_succ. destruct (feedbackCount s <? MAX_UINT256); [|done]. cbn [mbind res_bind].
  rewrite for_loop_5.
  inv_vec sc => s0 s1 s2 s3 s4. inv_vec w => w0 w1 w2 w3 w4.
  reflexivity.
Qed.

Lemma aggregateFeedback_eq env requestId results proof s :
  aggregateFeedback env requestId results proof s =
    if checkSignatures requestId results proof then
      match abi_decode results with
      | Ok (avgScores, overallScore) => Ok (generated env avgScores overallScore s)
      | Err f => Err f
      end
    else Err InvalidSignatures.
Proof.
  unfold aggregateFeedback.
  destruct (checkSignatures requestId results proof); [|done]. cbn [mbind res_bind].
  destruct (abi_decode results) as [[avgs overall]|]; [|done]. cbn [mbind res_bind].
  rewrite for_loop_5. inv_vec avgs => a0 a1 a2 a3 a4. reflexivity.
Qed.

Lemma decryptReport_eq env requestId cleartexts proof s :
  decryptReport env requestId cleartexts proof s =
    if checkSignatures requestId cleartexts proof then
      match abi_decode cleartexts with
      | Ok _ => Ok {| state := s; effects := [ReportDecrypted (sender env)];
                      retdata := [] |}
      | Err f => Err f
      end
    else Err InvalidSignatures.
Proof.
  unfold decryptReport.
  destruct (checkSignatures requestId cleartexts proof); [|done]. cbn [mbind res_bind].
  by destruct (abi_decode cleartexts) as [[avgs overall]|].
Qed.

Lemma requestReportDecryption_eq env s :
  requestReportDecryption env s =
    if negb (mget (isExecutive s) (sender env)) then Err (Revert "Not executive")
    else if negb (isAggregated (mget (reports s) (sender env)))
         then Err (Revert "Report not ready")
    else Ok {| state := s;
               effects := [RequestDecryption
                             (report_handles (mget (reports s) (sender env)))
                             decryptReport_selector];
               retdata := [] |}.
Proof.
  unfold requestReportDecryption, onlyExecutive, require.
  destruct (mget (isExecutive s) (sender env)); [|done]. cbn [mbind res_bind].
  destruct (mget (reports s) (sender env)) as [avgs overall agg]. cbn [mbind res_bind].
  destruct agg; [|done]. cbn [mbind res_bind].
  rewrite for_loop_5. inv_vec avgs => a0 a1 a2 a3 a4. reflexivity.
Qed.

Lemma vget_lt {A} (v : vec A 5) (i : N) :
  i < 5 → ∃ x, vec_to_list v !! N.to_nat i = Some x ∧ vget v i = Ok x.
Proof.
  intros Hi. unfold vget.
  destruct (vec_to_list v !! N.to_nat i) as [x|] eqn:Hx; [by exists x|].
  apply lookup_ge_None in Hx. rewrite length_vec_to_list in Hx. lia.
Qed.
End ClosedForms.

(** ** The loops are given enough fuel *)

Lemma checked_succ_fuel x : checked_succ x ≠ Err OutOfFuel.
Proof. unfold checked_succ. by destruct (x <? MAX_UINT256). Qed.

Lemma awrite_fuel {A} (arr : list A) i x : awrite arr i x ≠ Err OutOfFuel.
Proof. unfold awrite. by destruct (_ <? _)%nat. Qed.

Lemma bind_fuel {A B} (m : res A) (k : A → res B) :
  m ≠ Err OutOfFuel → (∀ a, k a ≠ Err OutOfFuel) → m ≫= k ≠ Err OutOfFuel.
Proof. destruct m as [a|f]; [intros _ Hk; apply Hk | intros Hm _ [= ->]; by apply Hm]. Qed.

Lemma for_loop_fuel {A} (body : N → A → res A) hi :
  (∀ j a, body j a ≠ Err OutOfFuel) →
  ∀ fuel i a, (N.to_nat (hi + 1 - i) ≤ fuel)%nat →
  for_loop fuel (λ i, i <=? hi) i body a ≠ Err OutOfFuel.
Proof.
  intros Hbody. induction fuel as [|fuel IH]; intros i a Hf.
  - simpl. destruct (N.leb_spec i hi); [lia|done].
  - rewrite for_loop_unfold. destruct (N.leb_spec i hi); [|done].
    apply bind_fuel; [done|]. intros a'.
    destruct (checked_succ i) as [i'|f] eqn:Hs.
    + apply checked_succ_Ok in Hs as [_ ->]. simpl. apply IH. lia.
    + simpl. pose proof (checked_succ_fuel i). congruence.
Qed.

Section Fuel.
Context `{FHE : FHELib}.

Lemma write_all_fuel xs : ∀ st, write_all xs st ≠ Err OutOfFuel.
Proof.
induction xs as [|x xs IH]; intros [arr idx]; [done|].
unfold write_all. simpl. fold (write_all xs).
apply bind_fuel; [|done].
apply bind_fuel; [apply awrite_fuel|]. intros arr'.
apply bind_fuel; [apply checked_succ_fuel|done].
Qed.

Lemma requestAggregation_fuel env s : requestAggregation env s ≠ Err OutOfFuel.
Proof.
unfold requestAggregation.
apply bind_fuel; [unfold onlyExecutive, require; by destruct (mget _ _)|]. intros _.
apply bind_fuel; [unfold require; by destruct (negb _)|]. intros _.
apply bind_fuel.
{ apply for_loop_fuel; [|lia]. intros j c.
  destruct (_ =? _); [apply checked_succ_fuel|done]. }
intros c. apply bind_fuel; [unfold require; by destruct (_ <=? _)|]. intros _.
apply bind_fuel; [unfold checked_mul; by destruct (_ <=? _)|]. intros len.
apply bind_fuel; [|by intros [??]].
apply for_loop_fuel; [|lia]. intros j st.
destruct (_ =? _); [|done]. rewrite collect_record_write_all. apply write_all_fuel.
Qed.
End Fuel.

(** ** Record ids *)

Lemma elem_of_ids n i : i ∈ ids n ↔ 1 ≤ i ≤ n.
Proof.
  unfold ids. rewrite list_elem_of_In, in_map_iff. split.
  - intros (k & <- & Hk%in_seq). lia.
  - intros Hi. exists (N.to_nat i). rewrite in_seq. split; lia.
Qed.

Lemma ids_from_sorted len : ∀ a, StronglySorted N.lt (map N.of_nat (seq a len)).
Proof.
  induction len as [|len IH]; intros a; simpl; constructor; [apply IH|].
  apply Forall_forall. intros x (k & <- & Hk%in_seq)%list_elem_of_In%in_map_iff. lia.
Qed.

Lemma StronglySorted_filter {A} (R : relation A) (P : A → Prop)
    `{∀ x, Decision (P x)} l :
  StronglySorted R l → StronglySorted R (filter P l).
Proof.
  induction 1 as [|x l Hl IH Hx]; [constructor|].
  destruct (decide (P x)).
  - rewrite filter_cons_True by done. constructor; [done|].
    apply Forall_forall. intros y [_ Hy]%list_elem_of_filter.
    by eapply Forall_forall in Hx.
  - by rewrite filter_cons_False.
Qed.

Lemma elem_of_records_of s who i :
  i ∈ records_of s who
  ↔ 1 ≤ i ≤ feedbackCount s ∧ executive (mget (feedbacks s) i) = who.
Proof. unfold records_of. rewrite list_elem_of_filter, elem_of_ids. tauto. Qed.

Lemma records_of_sorted s who : StronglySorted N.lt (records_of s who).
Proof. apply StronglySorted_filter, ids_from_sorted. Qed.

(** ** Mapping reads after a write *)

Lemma mget_insert {V} `{Zero V} (m : gmap N V) k v : mget (<[k := v]> m) k = v.
Proof. unfold mget. by rewrite lookup_insert_eq. Qed.

Lemma mget_insert_ne {V} `{Zero V} (m : gmap N V) k k' v :
  k ≠ k' → mget (<[k := v]> m) k' = mget m k'.
Proof. intros. unfold mget. by rewrite lookup_insert_ne. Qed.

(** ** The ABI decoder undoes the encoder *)

(** A value below 256 survives the trip through a byte. *)
Lemma byte_of_to_N x : x < 256 → Byte.to_N (default x00 (Byte.of_N x)) = x.
Proof.
  intros Hx. destruct (Byte.of_N x) as [b|] eqn:Hb; simpl.
  - by apply Byte.to_of_N.
  - apply Byte.of_N_None_iff in Hb. lia.
Qed.

(** Reading the [n] low base-256 digits of [w], most significant first. *)
Lemma be_word_digits w n : ∀ acc,
  foldl (λ acc b, acc * 256 + Byte.to_N b) acc
    (map (λ k : nat, default x00 (Byte.of_N ((w / 256 ^ N.of_nat k) mod 256)))
         (rev (seq 0 n)))
  = acc * 256 ^ N.of_nat n + w mod 256 ^ N.of_nat n.
Proof.
  induction n as [|n IH]; intros acc.
  - simpl. rewrite N.mod_1_r. lia.
  - rewrite seq_S, rev_app_distr. simpl rev. simpl map. simpl foldl.
    rewrite IH, byte_of_to_N by (apply N.mod_lt; lia).
    rewrite Nat2N.inj_succ, N.pow_succ_r'.
    rewrite (N.mul_comm 256 (256 ^ N.of_nat n)), N.Div0.mod_mul_r. lia.
Qed.

Arguments encode_word : simpl never.

Lemma length_encode_word w : length (encode_word w) = 32%nat.
Proof. reflexivity. Qed.

Lemma be_word_encode_word w : w < 2 ^ 256 → be_word (encode_word w) = w.
Proof.
  intros Hw. unfold be_word, encode_word. rewrite be_word_digits.
  change (256 ^ N.of_nat 32) with (2 ^ 256). rewrite N.mod_small by done. lia.
Qed.

Lemma decode_uint32_encode data w k pre post :
  data = pre ++ encode_word w ++ post → length pre = (32 * k)%nat → w < 2 ^ 32 →
  decode_uint32 data k = Ok w.
Proof.
  intros -> Hpre Hw. unfold decode_uint32, word_at.
  rewrite drop_app_length' by done.
  rewrite (take_app_length' (encode_word w) post 32) by done.
  rewrite be_word_encode_word.
  - by apply N.ltb_lt in Hw as ->.
  - eapply N.lt_trans; [exact Hw|reflexivity].
Qed.

Lemma length_concat_encode ws :
  length (concat (map encode_word ws)) = (32 * length ws)%nat.
Proof.
  induction ws as [|w ws IH]; [done|].
  cbn [map concat]. rewrite length_app, length_encode_word, IH. simpl. lia.
Qed.

(** The [k]-th head word of an encoded sequence of words decodes to it. *)
Lemma decode_uint32_nth ws k w rest :
  ws !! k = Some w → w < 2 ^ 32 →
  decode_uint32 (concat (map encode_word ws) ++ rest) k = Ok w.
Proof.
  intros Hk Hw.
  apply (decode_uint32_encode _ w k (concat (map encode_word (take k ws)))
           (concat (map encode_word (drop (S k) ws)) ++ rest)); [| |done].
  - rewrite <- (take_drop_middle ws k w Hk) at 1.
    rewrite map_app, concat_app. cbn [map concat].
    by rewrite <- !(assoc_L (++)).
  - rewrite length_concat_encode, length_take.
    apply lookup_lt_Some in Hk. lia.
Qed.

Lemma length_abi_encode avgs overall : length (abi_encode avgs overall) = 192%nat.
Proof. by inv_vec avgs => a0 a1 a2 a3 a4. Qed.

Lemma abi_encode_words avgs overall :
  abi_encode avgs overall
  = concat (map encode_word (vec_to_list avgs ++ [overall])) ++ [].
Proof.
  unfold abi_encode. rewrite map_app, concat_app. cbn [map concat].
  by rewrite !app_nil_r.
Qed.

Lemma bind_Ok {A B} (a : A) (k : A → res B) : Ok a ≫= k = k a.
Proof. reflexivity. Qed.

(** Decoding undoes the encoding of values that fit [uint32]. *)
Lemma abi_decode_encode (avgs : vec N 5) (overall : N) :
  Forall (λ a, a < 2 ^ 32) (vec_to_list avgs) → overall < 2 ^ 32 →
  abi_decode (abi_encode avgs overall) = Ok (avgs, overall).
Proof.
  intros Havgs Ho. unfold abi_decode. rewrite length_abi_encode.
  change (192 <? 192)%nat with false. cbv iota.
  rewrite abi_encode_words. revert Havgs.
  inv_vec avgs => a0 a1 a2 a3 a4. cbn [vec_to_list app].
  rewrite !Forall_cons. intros (H0 & H1 & H2 & H3 & H4 & _).
  rewrite (decode_uint32_nth _ 0 a0) by (assumption || reflexivity).
  rewrite bind_Ok. cbv beta.
  rewrite (decode_uint32_nth _ 1 a1) by (assumption || reflexivity).
  rewrite bind_Ok. cbv beta.
  rewrite (decode_uint32_nth _ 2 a2) by (assumption || reflexivity).
  rewrite bind_Ok. cbv beta.
  rewrite (decode_uint32_nth _ 3 a3) by (assumption || reflexivity).
  rewrite bind_Ok. cbv beta.
  rewrite (decode_uint32_nth _ 4 a4) by (assumption || reflexivity).
  rewrite bind_Ok. cbv beta.
  rewrite (decode_uint32_nth _ 5 overall) by (assumption || reflexivity).
  by rewrite bind_Ok.
Qed.

(** * The aggregation callback *)

Section Callbacks.
Context `{FHE : FHELib}.

(** An accepted callback passed the proof check, its payload decoded, and the
    outcome is [generated] for the caller. *)
Lemma aggregateFeedback_Ok env requestId results proof s o :
  aggregateFeedback env requestId results proof s = Ok o →
  checkSignatures requestId results proof = true
  ∧ ∃ avgScores overallScore,
      abi_decode results = Ok (avgScores, overallScore)
      ∧ o = generated env avgScores overallScore s.
Proof.
  rewrite aggregateFeedback_eq.
  destruct (checkSignatures requestId results proof); [|done].
  destruct (abi_decode results) as [[avgs overall]|]; [|done].
  intros [= <-]. eauto.
Qed.

(** A payload that encodes values fitting [uint32] and carries a verifying
    proof is accepted. *)
Lemma aggregateFeedback_accepts env requestId avgScores overallScore proof s :
  Forall (λ a, a < 2 ^ 32) (vec_to_list avgScores) → overallScore < 2 ^ 32 →
  checkSignatures requestId (abi_encode avgScores overallScore) proof = true →
  aggregateFeedback env requestId (abi_encode avgScores overallScore) proof s
  = Ok (generated env avgScores overallScore s).
Proof.
  intros Havgs Ho Hsig.
  by rewrite aggregateFeedback_eq, Hsig, abi_decode_encode.
Qed.

(** A successful callback completes the request it answers: afterwards no
    request of that id and selector is pending. *)
Lemma issuer_complete env c w rid sel :
  answered c = Some (rid, sel) →
  is_Ok (call env c (storage w)) →
  (∀ o, call env c (storage w) = Ok o →
        ∀ e, In e (effects o) → ∀ acc, issue (sender env) acc e = acc) →
  issuer (world_step env c w) rid sel = None.
Proof.
  intros Hans [o Ho] Hquiet. unfold world_step, issuer. rewrite Ho.
  assert (foldl (issue (sender env)) (nextRequestId w, complete c (pending w))
            (effects o) = (nextRequestId w, complete c (pending w))) as ->.
  { specialize (Hquiet o Ho). revert Hquiet.
    generalize (nextRequestId w, complete c (pending w)).
    induction (effects o) as [|e es IH]; intros acc Hq; [done|]. simpl.
    rewrite Hq by (by left). apply IH. intros e' He'. apply Hq. by right. }
  simpl. unfold complete. rewrite Hans.
  assert (list_find (λ r, request_id r = rid ∧ callback r = sel)
            (filter (λ r, ¬ (request_id r = rid ∧ callback r = sel)) (pending w))
          = None) as ->; [|done].
  apply list_find_None, Forall_forall. intros r Hr.
  by apply list_elem_of_filter in Hr as [Hr _].
Qed.

(** C1, as amended. The contract keeps no table of requests and compares
    nothing before it writes. When the executive [e] who issued the pending
    aggregation request delivers its callback and the callback is accepted,
    the decoded handles are stored with [isAggregated = true] in the report
    of [e] whatever that report held before, and the request is no longer
    pending. That changes nothing for the contract: a further callback for
    the same request id is accepted exactly when its proof verifies and its
    payload decodes, and the report of [e] then holds the handles of that
    payload. Repeating the first callback leaves the storage as it was. *)
Theorem aggregateFeedback_overwrites env requestId results proof w e o :
  issuer w requestId aggregateFeedback_selector = Some e →
  sender env = e →
  aggregateFeedback env requestId results proof (storage w) = Ok o →
  let delivered := AggregateFeedback requestId results proof in
  let w' := world_step env delivered w in
  (∃ avgScores overallScore,
      abi_decode results = Ok (avgScores, overallScore)
      ∧ mget (reports (storage w')) e = decoded_report avgScores overallScore)
  ∧ (∀ prior,
       aggregateFeedback env requestId results proof
         (set_reports (storage w) (<[e := prior]> (reports (storage w))))
       = Ok o)
  ∧ issuer w' requestId aggregateFeedback_selector = None
  ∧ (∀ results' proof',
       (is_Ok (aggregateFeedback env requestId results' proof' (storage w'))
        ↔ checkSignatures requestId results' proof' = true
          ∧ is_Ok (abi_decode results'))
       ∧ ∀ o', aggregateFeedback env requestId results' proof' (storage w')
               = Ok o' →
           ∃ avgScores' overallScore',
             abi_decode results' = Ok (avgScores', overallScore')
             ∧ mget (reports (state o')) e
               = decoded_report avgScores' overallScore')
  ∧ exec env delivered (storage w') = storage w'.
Proof.
  intros Hissued <- Hok delivered w'.
  pose proof Hok as (Hsig & avgs & overall & Hdec & ->)%aggregateFeedback_Ok.
  assert (storage w' = state (generated env avgs overall (storage w))) as Hw'.
  { unfold w', world_step, delivered. simpl. by rewrite Hok. }
  split; [|split; [|split; [|split]]].
  - exists avgs, overall. split; [done|]. rewrite Hw'. simpl. apply mget_insert.
  - intros prior. rewrite aggregateFeedback_eq, Hsig, Hdec. f_equal.
    unfold generated, set_reports. simpl. by rewrite insert_insert_eq.
  - apply issuer_complete; [done|eexists; simpl; exact Hok|].
    simpl. rewrite Hok. intros o [= <-] e. simpl. by intros [<-|[]] acc.
  - intros results' proof'. split.
    + unfold is_Ok. rewrite aggregateFeedback_eq. split.
      * intros [o' Ho'].
        destruct (checkSignatures requestId results' proof'); [|done].
        destruct (abi_decode results') as [[avgs' overall']|]; [|done]. eauto.
      * intros [-> [[avgs' overall'] ->]]. eauto.
    + intros o' (_ & avgs' & overall' & Hd' & ->)%aggregateFeedback_Ok.
      exists avgs', overall'. split; [done|]. simpl. apply mget_insert.
  - unfold exec, delivered. simpl. rewrite Hw'.
    rewrite aggregateFeedback_eq, Hsig, Hdec. simpl.
    unfold set_reports. simpl. by rewrite insert_insert_eq.
Qed.

(** C4. Callback application is all-or-nothing. When the proof of an
    aggregation or decryption callback does not verify against the request id
    and the payload, or the payload does not decode, the call reverts: the
    storage, the pending requests and so every report are what they were, and
    a report that was not aggregated is still not aggregated. *)
Theorem rejected_callback_changes_nothing env requestId payload proof c w :
  c = AggregateFeedback requestId payload proof
  ∨ c = DecryptReport requestId payload proof →
  checkSignatures requestId payload proof = false
  ∨ succeeds (abi_decode payload) = false →
  succeeds (call env c (storage w)) = false
  ∧ exec env c (storage w) = storage w
  ∧ world_step env c w = w
  ∧ ∀ e, isAggregated (mget (reports (storage w)) e) = false →
         isAggregated (mget (reports (storage (world_step env c w))) e) = false.
Proof.
  intros Hc Hbad.
  assert (∃ f, call env c (storage w) = Err f) as [f Hf].
  { destruct Hc as [-> | ->]; simpl;
      rewrite ?aggregateFeedback_eq, ?decryptReport_eq;
      destruct Hbad as [-> | Hdec]; eauto;
      destruct (abi_decode payload) as [[??]|]; try done;
      destruct (checkSignatures requestId payload proof); eauto. }
  unfold world_step, exec. rewrite Hf. done.
Qed.

End Callbacks.

(** * Submission, the aggregation gate and the decryption gate *)

Section Gates.
Context `{FHE : FHELib}.

(** C5, as amended. While the feedback counter can still be incremented,
    [submitFeedback] succeeds exactly when the caller is an approved reviewer
    and the target a registered executive, whatever the handles are. It then
    stores one record under the id [feedbackCount + 1] with the given
    executive, the caller, the five (score, weight) pairs, the comment handle
    and the block timestamp, changes nothing else, and reports the id in the
    [FeedbackSubmitted] event: the call itself returns no value. A failed
    precondition reverts with ["Not reviewer"] or ["Invalid executive"]. *)
Theorem submitFeedback_spec env executive encryptedScores encryptedWeights
    encryptedComments s :
  feedbackCount s < MAX_UINT256 →
  let r := submitFeedback env executive encryptedScores encryptedWeights
             encryptedComments s in
  (is_Ok r ↔ mget (isReviewer s) (sender env) = true
             ∧ mget (isExecutive s) executive = true)
  ∧ (mget (isReviewer s) (sender env) = false → r = Err (Revert "Not reviewer"))
  ∧ (mget (isReviewer s) (sender env) = true →
     mget (isExecutive s) executive = false →
     r = Err (Revert "Invalid executive"))
  ∧ (mget (isReviewer s) (sender env) = true →
     mget (isExecutive s) executive = true →
     ∃ o, r = Ok o
       ∧ feedbackCount (state o) = feedbackCount s + 1
       ∧ feedbacks (state o)
         = <[feedbackCount s + 1 :=
               {| executive := executive; reviewer := sender env;
                  categories := vzip_with Build_FeedbackCategory
                                  encryptedScores encryptedWeights;
                  encryptedComments := encryptedComments;
                  timestamp := now env |}]> (feedbacks s)
       ∧ reports (state o) = reports s
       ∧ isExecutive (state o) = isExecutive s
       ∧ isReviewer (state o) = isReviewer s
       ∧ feedbackPeriod (state o) = feedbackPeriod s
       ∧ effects o = [FeedbackSubmitted (feedbackCount s + 1) executive]
       ∧ retdata o = []).
Proof.
  intros Hlt r. subst r. unfold is_Ok. rewrite submitFeedback_eq.
  apply N.ltb_lt in Hlt as ->.
  destruct (mget (isReviewer s) (sender env)); simpl.
  2:{ split; [|done]. split; [by intros [? ?]|by intros [? _]]. }
  destruct (mget (isExecutive s) executive); simpl.
  2:{ split; [|done]. split; [by intros [? ?]|by intros [_ ?]]. }
  split; [split; eauto|]. split; [done|]. split; [done|].
  intros _ _. eexists. split; [done|]. done.
Qed.

(** C3, as amended. For a registered executive, and while eleven handles per
    stored record still fit a [uint256], [requestAggregation] succeeds exactly
    when at least [MIN_REVIEWERS] stored records name the caller and the
    caller's report is not aggregated; a request that is still pending is not
    looked at. When the report is aggregated the call reverts with
    ["Already aggregated"], when the records are too few with
    ["Insufficient feedback"], and in every case the storage is unchanged. *)
Theorem requestAggregation_gate env s :
  mget (isExecutive s) (sender env) = true →
  11 * feedbackCount s ≤ MAX_UINT256 →
  (is_Ok (requestAggregation env s)
   ↔ MIN_REVIEWERS ≤ feedbackCountOf s (sender env)
     ∧ isAggregated (mget (reports s) (sender env)) = false)
  ∧ (isAggregated (mget (reports s) (sender env)) = true →
     requestAggregation env s = Err (Revert "Already aggregated"))
  ∧ (isAggregated (mget (reports s) (sender env)) = false →
     feedbackCountOf s (sender env) < MIN_REVIEWERS →
     requestAggregation env s = Err (Revert "Insufficient feedback"))
  ∧ exec env RequestAggregation s = s.
Proof.
  intros Hexec Hrange. unfold exec, is_Ok. simpl.
  rewrite requestAggregation_eq, Hexec by done. simpl.
  destruct (isAggregated (mget (reports s) (sender env))).
  { split; [|done]. split; [by intros [? ?]|by intros [_ ?]]. }
  destruct (N.ltb_spec (feedbackCountOf s (sender env)) MIN_REVIEWERS) as [Hlt|Hge].
  - split; [|done]. split; [by intros [? ?]|]. intros [? _]. lia.
  - split; [|split; [done|split; [lia|done]]].
    split; [done|]. eauto.
Qed.

(** C7. When [requestAggregation] succeeds, the list it hands to the
    coprocessor is, for each stored record naming the caller and in increasing
    record id, that record's eleven handles: the (score, weight) pair of each
    of the five categories in category order, then the comment. Its length is
    eleven times the number of those records, and the records it draws from
    are exactly the ids [1..feedbackCount] whose executive is the caller. *)
Theorem requestAggregation_ciphertexts env s o :
  requestAggregation env s = Ok o →
  effects o = [RequestComputation (executive_handles s (sender env))
                 aggregateFeedback_selector;
               AggregationRequested (sender env)]
  ∧ length (executive_handles s (sender env))
    = (11 * length (records_of s (sender env)))%nat
  ∧ (∀ i, i ∈ records_of s (sender env)
          ↔ 1 ≤ i ≤ feedbackCount s
            ∧ executive (mget (feedbacks s) i) = sender env)
  ∧ StronglySorted N.lt (records_of s (sender env))
  ∧ (∀ fb sc0 sc1 sc2 sc3 sc4,
       categories fb = [# sc0; sc1; sc2; sc3; sc4] →
       record_handles fb
       = [toBytes32 (encryptedScore sc0); toBytes32 (encryptedWeight sc0);
          toBytes32 (encryptedScore sc1); toBytes32 (encryptedWeight sc1);
          toBytes32 (encryptedScore sc2); toBytes32 (encryptedWeight sc2);
          toBytes32 (encryptedScore sc3); toBytes32 (encryptedWeight sc3);
          toBytes32 (encryptedScore sc4); toBytes32 (encryptedWeight sc4);
          toBytes32 (encryptedComments fb)]).
Proof.
  intros (_ & _ & _ & ->)%requestAggregation_Ok.
  split; [done|]. split; [apply length_executive_handles|].
  split; [apply elem_of_records_of|]. split; [apply records_of_sorted|].
  intros fb sc0 sc1 sc2 sc3 sc4 Hc. unfold record_handles. by rewrite Hc.
Qed.

(** C6. For a registered executive, [requestReportDecryption] is admitted
    only once the caller's report is aggregated: before that it reverts with
    ["Report not ready"] and the storage is unchanged; after it the call
    succeeds and issues the six handles of the report for decryption. *)
Theorem requestReportDecryption_gate env s :
  mget (isExecutive s) (sender env) = true →
  (isAggregated (mget (reports s) (sender env)) = false →
     requestReportDecryption env s = Err (Revert "Report not ready")
     ∧ exec env RequestReportDecryption s = s)
  ∧ (isAggregated (mget (reports s) (sender env)) = true →
     requestReportDecryption env s
     = Ok {| state := s;
             effects := [RequestDecryption
                           (report_handles (mget (reports s) (sender env)))
                           decryptReport_selector];
             retdata := [] |}).
Proof.
  intros Hexec. unfold exec. simpl.
  rewrite requestReportDecryption_eq, Hexec. simpl.
  split; intros ->; done.
Qed.

(** C9. The decryption flow only reads the reports: after a successful
    [requestReportDecryption], and after an accepted [decryptReport], the
    storage is the one before the call, so the five average handles, the
    overall handle and the flag of every executive's report are the same. *)
Theorem decryption_read_only env requestId cleartexts proof s o :
  requestReportDecryption env s = Ok o
  ∨ decryptReport env requestId cleartexts proof s = Ok o →
  state o = s
  ∧ ∀ e,
      encryptedAvgScores (mget (reports (state o)) e)
      = encryptedAvgScores (mget (reports s) e)
      ∧ encryptedOverallScore (mget (reports (state o)) e)
        = encryptedOverallScore (mget (reports s) e)
      ∧ isAggregated (mget (reports (state o)) e)
        = isAggregated (mget (reports s) e).
Proof.
  intros Hok. assert (state o = s) as ->; [|done].
  destruct Hok as [Hok|Hok].
  - rewrite requestReportDecryption_eq in Hok.
    destruct (negb _); [done|]. destruct (negb _); [done|]. by injection Hok as <-.
  - rewrite decryptReport_eq in Hok.
    destruct (checkSignatures _ _ _); [|done].
    destruct (abi_decode _); [|done]. by injection Hok as <-.
Qed.

(** C10. [getEncryptedCategoryScore] asks nothing of its caller. It reverts
    with ["Invalid category"] exactly when the category is 5 or more; for a
    category below 5 the index is within the five stored averages and the call
    returns that handle of the named executive's report, leaving the storage
    as it is. *)
Theorem getEncryptedCategoryScore_total env executive category s :
  succeeds (getEncryptedCategoryScore env executive category s) = (category <? 5)
  ∧ (5 ≤ category →
     getEncryptedCategoryScore env executive category s
     = Err (Revert "Invalid category"))
  ∧ (category < 5 →
     ∃ h, vec_to_list (encryptedAvgScores (mget (reports s) executive))
            !! N.to_nat category = Some h
          ∧ getEncryptedCategoryScore env executive category s
            = Ok {| state := s; effects := []; retdata := [h] |}).
Proof.
  unfold getEncryptedCategoryScore, require.
  destruct (N.ltb_spec category 5) as [Hlt|Hge]; simpl.
  - destruct (vget_lt (encryptedAvgScores (mget (reports s) executive)) category Hlt)
      as (h & Hh & ->). simpl. split; [done|]. split; [lia|]. eauto.
  - split; [done|]. split; [done|lia].
Qed.

End Gates.

(** * The feedback log *)

Section Log.
Context `{FHE : FHELib}.

(** One transaction either leaves the log alone or appends one record. *)
Lemma exec_log env c s :
  (feedbackCount (exec env c s) = feedbackCount s
   ∧ feedbacks (exec env c s) = feedbacks s)
  ∨ (∃ fb, feedbackCount (exec env c s) = feedbackCount s + 1
         ∧ feedbacks (exec env c s) = <[feedbackCount s + 1 := fb]> (feedbacks s)).
Proof.
  unfold exec. destruct c; simpl; try (by left).
  - rewrite submitFeedback_eq.
    destruct (negb _); [by left|]. destruct (negb _); [by left|].
    destruct (_ <? _); [|by left]. right. eexists. done.
  - destruct (requestAggregation env s) as [o|] eqn:Ho; [|by left].
    apply requestAggregation_Ok in Ho as (_ & _ & _ & ->). by left.
  - rewrite aggregateFeedback_eq. destruct (checkSignatures _ _ _); [|by left].
    destruct (abi_decode _) as [[??]|]; by left.
  - rewrite requestReportDecryption_eq.
    destruct (negb _); [by left|]. destruct (negb _); by left.
  - rewrite decryptReport_eq. destruct (checkSignatures _ _ _); [|by left].
    destruct (abi_decode _) as [[??]|]; by left.
  - unfold getEncryptedCategoryScore, require.
    destruct (category <? 5); simpl; [|by left].
    unfold mbind, res_bind. destruct (vget _ category); by left.
  - unfold getEncryptedOverallScore, onlyExecutive, require.
    destruct (mget (isExecutive s) (sender env)); by left.
Qed.

(** C8. The feedback records are an append-only log. Through any history of
    transactions, a record stored under an id up to the current count reads
    the same afterwards, field for field, the count never decreases, and ids
    beyond the final count are still as they were: a transaction either
    leaves the log alone or stores one record under the next id. *)
Theorem feedback_log_append_only txs s i :
  i ≤ feedbackCount s →
  feedbacks (run txs s) !! i = feedbacks s !! i
  ∧ feedbackCount s ≤ feedbackCount (run txs s)
  ∧ (∀ j, feedbackCount (run txs s) < j →
          feedbacks (run txs s) !! j = feedbacks s !! j).
Proof.
  revert s. induction txs as [|[env c] txs IH]; intros s Hi; simpl.
  { split; [done|]. split; [lia|done]. }
  fold (run txs (exec env c s)).
  destruct (exec_log env c s) as [[Hn Hf]|(fb & Hn & Hf)].
  - destruct (IH (exec env c s)) as (H1 & H2 & H3); [lia|].
    rewrite H1, Hf. split; [done|]. split; [lia|].
    intros j Hj. by rewrite H3, Hf.
  - destruct (IH (exec env c s)) as (H1 & H2 & H3); [lia|].
    rewrite H1, Hf. split; [apply lookup_insert_ne; lia|]. split; [lia|].
    intros j Hj. rewrite H3, Hf by done. apply lookup_insert_ne. lia.
Qed.
End Log.

(** * Histories of transactions *)

(** The cases of a call, with the names of the source's parameters. *)
Ltac destruct_call c :=
  destruct c as [|r|e sc w cm| |rid results proof| |rid cleartexts proof
                |e category|e|p|g].

Section History.
Context `{FHE : FHELib}.

(** The storage after one transaction, entry point by entry point. *)
Lemma exec_eq env c s :
  exec env c s =
  match c with
  | RegisterExecutive =>
      set_isExecutive s (<[sender env := true]> (isExecutive s))
  | ApproveReviewer r => set_isReviewer s (<[r := true]> (isReviewer s))
  | SubmitFeedback e sc w cm =>
      if mget (isReviewer s) (sender env) && mget (isExecutive s) e
         && (feedbackCount s <? MAX_UINT256)
      then state (submitted env e sc w cm s) else s
  | AggregateFeedback rid results proof =>
      if checkSignatures rid results proof then
        match abi_decode results with
        | Ok (avgs, overall) => state (generated env avgs overall s)
        | Err _ => s
        end
      else s
  | SetFeedbackPeriod p => set_feedbackPeriod s p
  | _ => s
  end.
Proof.
  unfold exec. destruct_call c; simpl; try done.
  - rewrite submitFeedback_eq.
    destruct (mget (isReviewer s) (sender env)); simpl; [|done].
    destruct (mget (isExecutive s) _); simpl; [|done].
    by destruct (feedbackCount s <? MAX_UINT256).
  - destruct (requestAggregation env s) as [o|] eqn:Ho; [|done].
    by apply requestAggregation_Ok in Ho as (_ & _ & _ & ->).
  - rewrite aggregateFeedback_eq. destruct (checkSignatures _ _ _); [|done].
    by destruct (abi_decode _) as [[avgs overall]|].
  - rewrite requestReportDecryption_eq.
    destruct (negb _); [done|]. by destruct (negb _).
  - rewrite decryptReport_eq. destruct (checkSignatures _ _ _); [|done].
    by destruct (abi_decode _) as [[??]|].
  - unfold getEncryptedCategoryScore, require.
    destruct (_ <? 5); simpl; [|done].
    unfold mbind, res_bind. by destruct (vget _ _).
  - unfold getEncryptedOverallScore, onlyExecutive, require.
    by destruct (mget (isExecutive s) (sender env)).
Qed.

Lemma mget_insert_bool (m : gmap N bool) k a :
  mget (<[k := true]> m) a = mget m a || (k =? a).
Proof.
  destruct (N.eqb_spec k a) as [->|Hne].
  - rewrite mget_insert. by rewrite orb_true_r.
  - rewrite mget_insert_ne by done. by rewrite orb_false_r.
Qed.

(** One transaction and the two role tables. *)
Lemma exec_roles env c s a :
  mget (isExecutive (exec env c s)) a
  = mget (isExecutive s) a || registers a (env, c)
  ∧ mget (isReviewer (exec env c s)) a
    = mget (isReviewer s) a || approves a (env, c).
Proof.
  rewrite exec_eq. unfold registers, approves. simpl.
  destruct_call c; simpl;
    rewrite ?mget_insert_bool, ?orb_false_r; try done.
  - by destruct (_ && _ && _).
  - destruct (checkSignatures _ _ _); [|done].
    by destruct (abi_decode _) as [[??]|].
Qed.

Lemma run_cons tx txs s : run (tx :: txs) s = run txs (exec tx.1 tx.2 s).
Proof. reflexivity. Qed.

Lemma run_isExecutive txs s a :
  mget (isExecutive s) a = true → mget (isExecutive (run txs s)) a = true.
Proof.
  revert s. induction txs as [|[env c] txs IH]; intros s Ha; [done|].
  rewrite run_cons. apply IH. simpl.
  destruct (exec_roles env c s a) as [-> _]. by rewrite Ha.
Qed.

(** X1. Roles are only ever added. After any history an address is an
    executive exactly when it was one before or some transaction of the
    history was its own [registerExecutive], and a reviewer exactly when it
    was one before or some transaction approved it: no call revokes a role. *)
Theorem roles_after_history txs s a :
  mget (isExecutive (run txs s)) a
  = mget (isExecutive s) a || existsb (registers a) txs
  ∧ mget (isReviewer (run txs s)) a
    = mget (isReviewer s) a || existsb (approves a) txs.
Proof.
  revert s. induction txs as [|[env c] txs IH]; intros s.
  { simpl. by rewrite !orb_false_r. }
  rewrite run_cons. simpl.
  destruct (IH (exec env c s)) as [-> ->].
  destruct (exec_roles env c s a) as [-> ->].
  by rewrite !orb_assoc.
Qed.

(** One transaction and the report of [a]. *)
Lemma exec_report env c s a :
  reports (exec env c s) !! a = reports s !! a
  ∨ (delivers_as a (env, c) = true
     ∧ ∃ avgs overall,
         reports (exec env c s) !! a = Some (decoded_report avgs overall)).
Proof.
  rewrite exec_eq. unfold delivers_as. simpl.
  destruct_call c; simpl; try (by left).
  - left. by destruct (_ && _ && _).
  - destruct (checkSignatures _ _ _); [|by left].
    destruct (abi_decode _) as [[avgs overall]|]; [|by left]. simpl.
    destruct (N.eqb_spec (sender env) a) as [->|Hne].
    + right. split; [done|]. exists avgs, overall. apply lookup_insert_eq.
    + left. by apply lookup_insert_ne.
Qed.

(** X4. The report of an address is written by nothing but an aggregation
    callback that this very address invokes: through a history without one,
    the stored report is the same entry. *)
Theorem report_written_only_by_own_callback txs s a :
  existsb (delivers_as a) txs = false →
  reports (run txs s) !! a = reports s !! a.
Proof.
  revert s. induction txs as [|[env c] txs IH]; intros s; simpl; [done|].
  intros [Hc Htxs]%orb_false_iff. fold (run txs (exec env c s)).
  rewrite IH by done.
  destruct (exec_report env c s a) as [?|[Hd _]]; [done|congruence].
Qed.

Lemma requestAggregation_aggregated env s :
  mget (isExecutive s) (sender env) = true →
  isAggregated (mget (reports s) (sender env)) = true →
  requestAggregation env s = Err (Revert "Already aggregated").
Proof.
  intros He Ha. unfold requestAggregation, onlyExecutive, require.
  by rewrite He, Ha.
Qed.

Lemma exec_aggregated env c s a :
  isAggregated (mget (reports s) a) = true →
  isAggregated (mget (reports (exec env c s)) a) = true.
Proof.
  intros Ha. unfold mget in *.
  destruct (exec_report env c s a) as [->|(_ & avgs & overall & ->)]; done.
Qed.

(** X3. Aggregation is permanent. Once the report of the caller is
    aggregated it stays aggregated through every history, and for a
    registered executive every later [requestAggregation] reverts with
    ["Already aggregated"]. *)
Theorem aggregated_is_permanent txs env s :
  isAggregated (mget (reports s) (sender env)) = true →
  isAggregated (mget (reports (run txs s)) (sender env)) = true
  ∧ (mget (isExecutive s) (sender env) = true →
     requestAggregation env (run txs s) = Err (Revert "Already aggregated")).
Proof.
  intros Ha.
  assert (isAggregated (mget (reports (run txs s)) (sender env)) = true) as Hf.
  { revert s Ha. induction txs as [|[env' c] txs IH]; intros s Ha; [done|].
    rewrite run_cons. apply IH. by apply exec_aggregated. }
  split; [done|]. intros He. apply requestAggregation_aggregated; [|done].
  by apply run_isExecutive.
Qed.
End History.

(** * What every reachable storage satisfies *)

Lemma ids_succ n : ids (n + 1) = ids n ++ [n + 1].
Proof.
  unfold ids. replace (N.to_nat (n + 1)) with (S (N.to_nat n)) by lia.
  rewrite seq_S, map_app. simpl. do 3 f_equal. lia.
Qed.

Section Invariants.
Context `{FHE : FHELib}.

Lemma log_wf_initial : log_wf initial.
Proof.
  split; [done|]. intros i. simpl. rewrite lookup_empty. lia.
Qed.

Lemma log_wf_exec env c s : log_wf s → log_wf (exec env c s).
Proof.
  intros [Hmax Hwf].
  assert (∀ s', feedbackCount s' = feedbackCount s → feedbacks s' = feedbacks s →
                (∀ a, mget (isExecutive s) a = true → mget (isExecutive s') a = true) →
                (∀ a, mget (isReviewer s) a = true → mget (isReviewer s') a = true) →
                log_wf s') as Hsame.
  { intros s' Hn Hf He Hr. split; [by rewrite Hn|]. intros i.
    rewrite Hf, Hn. specialize (Hwf i).
    destruct (feedbacks s !! i); [|done].
    destruct Hwf as (? & ? & ?). auto. }
  rewrite exec_eq. destruct_call c; try (by apply Hsame).
  - apply Hsame; try done. simpl. intros a Ha. by rewrite mget_insert_bool, Ha.
  - apply Hsame; try done. simpl. intros a Ha. by rewrite mget_insert_bool, Ha.
  - destruct (mget (isReviewer s) (sender env)) eqn:Hr; simpl; [|by apply Hsame].
    destruct (mget (isExecutive s) e) eqn:He; simpl; [|by apply Hsame].
    destruct (N.ltb_spec (feedbackCount s) MAX_UINT256); [|by apply Hsame].
    split; simpl; [lia|]. intros i.
    destruct (decide (i = feedbackCount s + 1)) as [->|Hne].
    + rewrite lookup_insert_eq. simpl. split; [lia|done].
    + rewrite lookup_insert_ne by done. specialize (Hwf i).
      destruct (feedbacks s !! i); [|lia].
      destruct Hwf as (? & ? & ?). split; [lia|done].
  - destruct (checkSignatures _ _ _); [|by apply Hsame].
    destruct (abi_decode _) as [[??]|]; by apply Hsame.
Qed.

Lemma reports_wf_exec env c s : reports_wf s → reports_wf (exec env c s).
Proof.
  intros Hwf a r Hr.
  destruct (exec_report env c s a) as [Heq|(_ & avgs & overall & Heq)].
  - rewrite Heq in Hr. by eapply Hwf.
  - rewrite Heq in Hr. by injection Hr as <-.
Qed.

Lemma run_invariant (P : State → Prop) :
  (∀ env c s, P s → P (exec env c s)) → ∀ txs s, P s → P (run txs s).
Proof.
  intros Hstep. induction txs as [|[env c] txs IH]; intros s Hs; [done|].
  rewrite run_cons. apply IH, Hstep, Hs.
Qed.

(** X5. In every storage reached from deployment the feedback count fits a
    [uint256], a record is stored under an id exactly when the id lies in
    [1..feedbackCount], and every stored record names a registered executive
    and an approved reviewer. *)
Theorem log_is_wellformed txs i :
  let s := run txs initial in
  feedbackCount s ≤ MAX_UINT256
  ∧ (is_Some (feedbacks s !! i) ↔ 1 ≤ i ≤ feedbackCount s)
  ∧ ∀ fb, feedbacks s !! i = Some fb →
          mget (isExecutive s) (executive fb) = true
          ∧ mget (isReviewer s) (reviewer fb) = true.
Proof.
  intros s. destruct (run_invariant log_wf log_wf_exec txs initial log_wf_initial)
    as [Hmax Hwf].
  fold s in Hmax, Hwf. specialize (Hwf i). split; [done|].
  destruct (feedbacks s !! i) as [fb|].
  - destruct Hwf as (Hi & He & Hr). split.
    + split; [by intros _|by eexists].
    + by intros ? [= <-].
  - split; [|done]. split; [by intros [? ?]|done].
Qed.

(** X6. In every storage reached from deployment, a report that is not
    aggregated was never written: both accessors return the zero handle for
    it. *)
Theorem unaggregated_report_reads_zero txs a :
  let s := run txs initial in
  isAggregated (mget (reports s) a) = false →
  reports s !! a = None
  ∧ (∀ env category, category < 5 →
       getEncryptedCategoryScore env a category s
       = Ok {| state := s; effects := []; retdata := [0] |})
  ∧ (∀ env, mget (isExecutive s) (sender env) = true →
       getEncryptedOverallScore env a s
       = Ok {| state := s; effects := []; retdata := [0] |}).
Proof.
  intros s Hagg.
  assert (reports_wf s) as Hwf.
  { apply run_invariant; [apply reports_wf_exec|]. intros ? ?. simpl.
    by rewrite lookup_empty. }
  assert (reports s !! a = None) as Hnone.
  { destruct (reports s !! a) as [r|] eqn:Hr; [|done].
    unfold mget in Hagg. rewrite Hr in Hagg. simpl in Hagg.
    apply Hwf in Hr. congruence. }
  split; [done|]. split.
  - intros env category Hc. unfold getEncryptedCategoryScore, require, mget.
    rewrite Hnone. apply N.ltb_lt in Hc as Hc'. rewrite Hc'. simpl.
    assert (N.to_nat category < 5)%nat as Hn by lia. unfold vget. simpl.
    by destruct (N.to_nat category) as [|[|[|[|[|?]]]]]; [..|lia].
  - intros env He. unfold getEncryptedOverallScore, onlyExecutive, require, mget in *.
    destruct (isExecutive s !! sender env) as [[]|]; try done. simpl.
    by rewrite Hnone.
Qed.

Lemma filter_ext_in {A} (P Q : A → Prop) `{!∀ x, Decision (P x), !∀ x, Decision (Q x)}
    (l : list A) :
  (∀ x, x ∈ l → P x ↔ Q x) → filter P l = filter Q l.
Proof.
  induction l as [|a l IH]; intros Hl; [done|].
  assert (filter P l = filter Q l) as Hrec.
  { apply IH. intros x Hx. apply Hl. by right. }
  destruct (decide (P a)) as [Ha|Ha].
  - rewrite !filter_cons_True; [by rewrite Hrec| |done]. apply Hl; [left|done].
  - rewrite !filter_cons_False; [done| |done]. intros Hq. apply Ha, Hl; [left|done].
Qed.

(** The records of [who] after one more record is stored. *)
Lemma records_of_insert s s' fb who :
  feedbackCount s' = feedbackCount s + 1 →
  feedbacks s' = <[feedbackCount s + 1 := fb]> (feedbacks s) →
  records_of s' who
  = records_of s who
    ++ (if decide (executive fb = who) then [feedbackCount s + 1] else [])
  ∧ executive_handles s' who
    = executive_handles s who
      ++ (if decide (executive fb = who) then record_handles fb else []).
Proof.
  intros Hn Hf.
  assert (∀ i, i ∈ ids (feedbackCount s) →
               mget (feedbacks s') i = mget (feedbacks s) i) as Hold.
  { intros i Hi%elem_of_ids. rewrite Hf. apply mget_insert_ne. lia. }
  assert (mget (feedbacks s') (feedbackCount s + 1) = fb) as Hnew.
  { rewrite Hf. apply mget_insert. }
  assert (records_of s' who
          = records_of s who
            ++ (if decide (executive fb = who) then [feedbackCount s + 1] else []))
    as Hrec.
  { unfold records_of. rewrite Hn, ids_succ, filter_app. f_equal.
    - apply filter_ext_in. intros i Hi. by rewrite Hold.
    - destruct (decide (executive fb = who)) as [He|He].
      + rewrite filter_cons_True; [done|]. by rewrite Hnew.
      + rewrite filter_cons_False; [done|]. by rewrite Hnew. }
  split; [done|]. unfold executive_handles. rewrite Hrec, map_app, concat_app.
  f_equal.
  - f_equal. apply map_ext_in. intros i Hi%list_elem_of_In.
    rewrite Hold; [done|]. apply elem_of_records_of in Hi. apply elem_of_ids. tauto.
  - destruct (decide (executive fb = who)); simpl; [|done].
    by rewrite Hnew, app_nil_r.
Qed.

(** X7. A successful submission for [e] appends the new id to the records of
    [e] and the eleven handles of the new record to the end of the list
    [requestAggregation] would issue for [e]; the records and the list of
    every other executive are unchanged. *)
Theorem submitFeedback_extends_records env e sc w cm s o :
  submitFeedback env e sc w cm s = Ok o →
  records_of (state o) e = records_of s e ++ [feedbackCount s + 1]
  ∧ executive_handles (state o) e
    = executive_handles s e ++ record_handles (new_record env e sc w cm)
  ∧ ∀ e', e' ≠ e →
      records_of (state o) e' = records_of s e'
      ∧ executive_handles (state o) e' = executive_handles s e'.
Proof.
  rewrite submitFeedback_eq.
  destruct (negb _); [done|]. destruct (negb _); [done|].
  destruct (_ <? _); [|done]. intros [= <-].
  pose proof (λ who, records_of_insert s (state (submitted env e sc w cm s))
                       (new_record env e sc w cm) who eq_refl eq_refl) as Hins.
  split; [|split].
  - destruct (Hins e) as [-> _]. simpl. by rewrite decide_True.
  - destruct (Hins e) as [_ ->]. simpl. by rewrite decide_True.
  - intros e' He'. destruct (Hins e') as [-> ->]. simpl.
    rewrite !decide_False by done. by rewrite !app_nil_r.
Qed.

(** One transaction only ever appends to the handles of an executive. *)
Lemma exec_handles_prefix env c s who :
  records_of s who `prefix_of` records_of (exec env c s) who
  ∧ executive_handles s who `prefix_of` executive_handles (exec env c s) who.
Proof.
  destruct (exec_log env c s) as [[Hn Hf]|(fb & Hn & Hf)].
  - unfold executive_handles, records_of. by rewrite Hn, Hf.
  - destruct (records_of_insert s (exec env c s) fb who Hn Hf) as [-> ->].
    split; by apply prefix_app_r.
Qed.

(** X8. Through any history the records of an executive, and the handle list
    an aggregation request would carry, only grow at the end: the earlier
    list is a prefix of the later one, and the number of records never
    decreases. *)
Theorem handles_only_grow txs s who :
  records_of s who `prefix_of` records_of (run txs s) who
  ∧ executive_handles s who `prefix_of` executive_handles (run txs s) who
  ∧ feedbackCountOf s who ≤ feedbackCountOf (run txs s) who.
Proof.
  assert (records_of s who `prefix_of` records_of (run txs s) who
          ∧ executive_handles s who `prefix_of` executive_handles (run txs s) who)
    as [Hr Hh].
  { revert s. induction txs as [|[env c] txs IH]; intros s; [done|].
    rewrite run_cons. simpl.
    destruct (exec_handles_prefix env c s who) as [H1 H2].
    destruct (IH (exec env c s)) as [H3 H4].
    split; by etrans. }
  split; [done|]. split; [done|]. unfold feedbackCountOf.
  apply prefix_length in Hr. lia.
Qed.
End Invariants.

(** * How the operations compose *)

Section Composition.
Context `{FHE : FHELib}.

Lemma run_submissions env e subs : ∀ s,
  mget (isReviewer s) (sender env) = true →
  mget (isExecutive s) e = true →
  feedbackCount s + N.of_nat (length subs) ≤ MAX_UINT256 →
  let s' := run (submissions env e subs) s in
  feedbackCount s' = feedbackCount s + N.of_nat (length subs)
  ∧ feedbackCountOf s' e = feedbackCountOf s e + N.of_nat (length subs)
  ∧ isExecutive s' = isExecutive s
  ∧ reports s' = reports s.
Proof.
  induction subs as [|[[sc w] cm] subs IH]; intros s Hr He Hmax.
  { simpl. split; [lia|]. split; [lia|done]. }
  simpl in Hmax. unfold submissions. simpl map. rewrite run_cons.
  fold (submissions env e subs). simpl fst. simpl snd.
  rewrite exec_eq, Hr, He. simpl andb.
  destruct (N.ltb_spec (feedbackCount s) MAX_UINT256); [|lia].
  set (s1 := state (submitted env e sc w cm s)).
  destruct (IH s1) as (Hn & Hc & Hx & Hrep); [done|done|simpl; lia|].
  destruct (records_of_insert s s1 (new_record env e sc w cm) e eq_refl eq_refl)
    as [Hrec _].
  simpl in Hrec. rewrite decide_True in Hrec by done.
  split; [rewrite Hn; simpl; lia|]. split; [|by rewrite Hx, Hrep].
  rewrite Hc. unfold feedbackCountOf. rewrite Hrec, length_app. simpl. lia.
Qed.

(** X9. The threshold counts records, not reviewers: when one approved
    reviewer submits at least [MIN_REVIEWERS] records for a registered
    executive whose report is not aggregated, that executive's
    [requestAggregation] succeeds. *)
Theorem single_reviewer_reaches_threshold env_r env_e subs s :
  mget (isReviewer s) (sender env_r) = true →
  mget (isExecutive s) (sender env_e) = true →
  isAggregated (mget (reports s) (sender env_e)) = false →
  MIN_REVIEWERS ≤ N.of_nat (length subs) →
  11 * (feedbackCount s + N.of_nat (length subs)) ≤ MAX_UINT256 →
  is_Ok (requestAggregation env_e
           (run (submissions env_r (sender env_e) subs) s)).
Proof.
  intros Hr He Ha Hmin Hmax.
  destruct (run_submissions env_r (sender env_e) subs s Hr He) as (Hn & Hc & Hx & Hrep);
    [lia|].
  rewrite requestAggregation_eq by (rewrite Hn; lia).
  rewrite Hx, He, Hrep, Ha. simpl.
  destruct (N.ltb_spec (feedbackCountOf (run (submissions env_r (sender env_e) subs) s)
                          (sender env_e)) MIN_REVIEWERS) as [Hlt|Hge].
  - rewrite Hc in Hlt. lia.
  - eexists. done.
Qed.

(** X2. Enrolment is open: any address can register itself as an executive,
    approve itself as a reviewer and then submit feedback about itself; the
    record is stored with that address as executive and as reviewer. *)
Theorem self_enrolment_allows_self_review env sc w cm s :
  feedbackCount s < MAX_UINT256 →
  let a := sender env in
  let s' := run [(env, RegisterExecutive); (env, ApproveReviewer a);
                 (env, SubmitFeedback a sc w cm)] s in
  feedbackCount s' = feedbackCount s + 1
  ∧ feedbacks s' !! (feedbackCount s + 1) = Some (new_record env a sc w cm).
Proof.
  intros Hlt a s'. subst s'. rewrite !run_cons. simpl fst. simpl snd.
  rewrite (exec_eq env RegisterExecutive), (exec_eq env (ApproveReviewer a)).
  rewrite exec_eq. simpl. rewrite !mget_insert. simpl.
  apply N.ltb_lt in Hlt as ->. simpl. split; [done|]. apply lookup_insert_eq.
Qed.

(** X10. [getEncryptedOverallScore] checks the role of its caller, not the
    relation to the executive asked about: a caller that is no registered
    executive is refused with ["Not executive"], and a registered one reads
    the overall handle of any address. *)
Theorem getEncryptedOverallScore_gate env executive s :
  (mget (isExecutive s) (sender env) = false →
   getEncryptedOverallScore env executive s = Err (Revert "Not executive"))
  ∧ (mget (isExecutive s) (sender env) = true →
     getEncryptedOverallScore env executive s
     = Ok {| state := s; effects := [];
             retdata := [encryptedOverallScore (mget (reports s) executive)] |}).
Proof.
  unfold getEncryptedOverallScore, onlyExecutive, require.
  split; intros ->; done.
Qed.

(** X15. Once an aggregation callback delivered by a registered executive
    was accepted, that executive's [requestReportDecryption] succeeds and
    issues, in order, the handles of the five decoded averages and of the
    decoded overall score. *)
Theorem decryption_request_after_aggregation env requestId results proof s o :
  mget (isExecutive s) (sender env) = true →
  aggregateFeedback env requestId results proof s = Ok o →
  ∃ avgScores overallScore,
    abi_decode results = Ok (avgScores, overallScore)
    ∧ requestReportDecryption env (state o)
      = Ok {| state := state o;
              effects :=
                [RequestDecryption
                   (map (λ v, toBytes32 (asEuint32 v)) (vec_to_list avgScores)
                    ++ [toBytes32 (asEuint32 overallScore)])
                   decryptReport_selector];
              retdata := [] |}.
Proof.
  intros He (_ & avgs & overall & Hdec & ->)%aggregateFeedback_Ok.
  exists avgs, overall. split; [done|].
  rewrite requestReportDecryption_eq. simpl. rewrite He, mget_insert. simpl.
  unfold report_handles. simpl. by rewrite vec_to_list_map, map_map.
Qed.

(** X16. After an accepted aggregation callback the accessors return what it
    stored: [getEncryptedCategoryScore] the handle of the decoded average of
    that category, to any caller, and [getEncryptedOverallScore] the handle
    of the decoded overall score, to a registered executive. *)
Theorem accessors_after_aggregation env requestId results proof s o :
  aggregateFeedback env requestId results proof s = Ok o →
  ∃ avgScores overallScore,
    abi_decode results = Ok (avgScores, overallScore)
    ∧ (∀ env' category v,
         vec_to_list avgScores !! N.to_nat category = Some v →
         getEncryptedCategoryScore env' (sender env) category (state o)
         = Ok {| state := state o; effects := []; retdata := [asEuint32 v] |})
    ∧ (∀ env', mget (isExecutive s) (sender env') = true →
         getEncryptedOverallScore env' (sender env) (state o)
         = Ok {| state := state o; effects := [];
                 retdata := [asEuint32 overallScore] |}).
Proof.
  intros (_ & avgs & overall & Hdec & ->)%aggregateFeedback_Ok.
  exists avgs, overall. split; [done|]. split.
  - intros env' category v Hv.
    assert (category < 5) as Hc.
    { apply lookup_lt_Some in Hv. rewrite length_vec_to_list in Hv. lia. }
    unfold getEncryptedCategoryScore, require. apply N.ltb_lt in Hc as ->.
    simpl. rewrite mget_insert. simpl. unfold vget.
    by rewrite vec_to_list_map, list_lookup_fmap, Hv.
  - intros env' He. unfold getEncryptedOverallScore, onlyExecutive, require.
    simpl. rewrite He. simpl. by rewrite mget_insert.
Qed.
End Composition.

(** * The payload of a callback *)

Lemma word_at_take data k :
  (k < 6)%nat → word_at (take 192 data) k = word_at data k.
Proof.
  intros Hk. unfold word_at. rewrite !take_drop_commute, take_take.
  do 3 f_equal. lia.
Qed.

(** What the decoder accepts, in terms of the six head words. *)
Lemma abi_decode_Ok data avgs overall :
  abi_decode data = Ok (avgs, overall)
  ↔ (192 ≤ length data)%nat
    ∧ (∀ k, (k < 6)%nat → word_at data k < 2 ^ 32)
    ∧ avgs = [# word_at data 0; word_at data 1; word_at data 2;
                word_at data 3; word_at data 4]
    ∧ overall = word_at data 5.
Proof.
  unfold abi_decode, decode_uint32.
  destruct (Nat.ltb_spec (length data) 192) as [Hshort|Hlong].
  { split; [done|]. intros [? _]. lia. }
  split.
  - intros H.
    destruct (N.ltb_spec (word_at data 0) (2 ^ 32)); [|done].
    destruct (N.ltb_spec (word_at data 1) (2 ^ 32)); [|done].
    destruct (N.ltb_spec (word_at data 2) (2 ^ 32)); [|done].
    destruct (N.ltb_spec (word_at data 3) (2 ^ 32)); [|done].
    destruct (N.ltb_spec (word_at data 4) (2 ^ 32)); [|done].
    destruct (N.ltb_spec (word_at data 5) (2 ^ 32)); [|done].
    injection H as <- <-. split; [done|]. split; [|done].
    intros [|[|[|[|[|[|k]]]]]] Hk; (done || lia).
  - intros (_ & Hw & -> & ->).
    pose proof (Hw 0%nat) as H0. pose proof (Hw 1%nat) as H1.
    pose proof (Hw 2%nat) as H2. pose proof (Hw 3%nat) as H3.
    pose proof (Hw 4%nat) as H4. pose proof (Hw 5%nat) as H5.
    apply N.ltb_lt in H0 as ->; [|lia]. apply N.ltb_lt in H1 as ->; [|lia].
    apply N.ltb_lt in H2 as ->; [|lia]. apply N.ltb_lt in H3 as ->; [|lia].
    apply N.ltb_lt in H4 as ->; [|lia]. apply N.ltb_lt in H5 as ->; [|lia].
    done.
Qed.

Section Payload.
Context `{FHE : FHELib}.

(** X12. An aggregation callback is accepted exactly when its proof verifies
    and its payload has at least 192 bytes whose six 32-byte words are all
    below [2^32]: neither the caller's role, nor the feedback count, nor an
    earlier request is looked at. The report stored is made of those six
    words, and the bytes after the first 192 play no part. *)
Theorem aggregateFeedback_accepted_iff env requestId results proof s :
  (is_Ok (aggregateFeedback env requestId results proof s)
   ↔ checkSignatures requestId results proof = true
     ∧ (192 ≤ length results)%nat
     ∧ ∀ k, (k < 6)%nat → word_at results k < 2 ^ 32)
  ∧ (∀ o, aggregateFeedback env requestId results proof s = Ok o →
       mget (reports (state o)) (sender env)
       = decoded_report
           [# word_at results 0; word_at results 1; word_at results 2;
              word_at results 3; word_at results 4] (word_at results 5))
  ∧ (∀ proof', checkSignatures requestId (take 192 results) proof' = true →
       ∀ o, aggregateFeedback env requestId results proof s = Ok o →
       aggregateFeedback env requestId (take 192 results) proof' s = Ok o).
Proof.
  split; [|split].
  - unfold is_Ok. rewrite aggregateFeedback_eq. split.
    + intros [o Ho]. destruct (checkSignatures _ _ _); [|done].
      destruct (abi_decode results) as [[avgs overall]|] eqn:Hd; [|done].
      apply abi_decode_Ok in Hd as (? & ? & _). done.
    + intros (-> & Hlen & Hw).
      assert (abi_decode results = Ok _) as -> by (apply abi_decode_Ok; eauto).
      eauto.
  - intros o (_ & avgs & overall & Hd & ->)%aggregateFeedback_Ok.
    apply abi_decode_Ok in Hd as (_ & _ & -> & ->). simpl. apply mget_insert.
  - intros proof' Hsig o (_ & avgs & overall & Hd & ->)%aggregateFeedback_Ok.
    rewrite aggregateFeedback_eq, Hsig.
    assert (abi_decode (take 192 results) = Ok (avgs, overall)) as ->; [|done].
    apply abi_decode_Ok in Hd as (Hlen & Hw & -> & ->). apply abi_decode_Ok.
    rewrite length_take. split; [lia|].
    rewrite !word_at_take by lia. split; [|done].
    intros k Hk. rewrite word_at_take by done. auto.
Qed.

(** X11. The feedback period is never consulted: with another period in
    storage every call other than [setFeedbackPeriod] and the getter of the
    period has the same outcome, the stored period apart. *)
Theorem feedbackPeriod_is_inert env c s p :
  (∀ q, c ≠ SetFeedbackPeriod q) → c ≠ Read get_feedbackPeriod →
  call env c (set_feedbackPeriod s p) = with_period p (call env c s).
Proof.
  intros Hset Hread.
  destruct c as [| | | | | | | | |q|g]; simpl; try done.
  - rewrite !submitFeedback_eq. simpl.
    destruct (negb _); [done|]. destruct (negb _); [done|].
    by destruct (_ <? _).
  - unfold requestAggregation.
    change (onlyExecutive env (set_feedbackPeriod s p)) with (onlyExecutive env s).
    destruct (onlyExecutive env s); [|done]. simpl.
    destruct (require _ _); [|done]. simpl.
    change (count_loop (set_feedbackPeriod s p)) with (count_loop s).
    destruct (count_loop s (sender env)) as [c|]; [|done]. simpl.
    destruct (require _ _); [|done]. simpl.
    destruct (checked_mul c 11) as [len|]; [|done]. simpl.
    change (collect_loop (set_feedbackPeriod s p)) with (collect_loop s).
    by destruct (collect_loop s (sender env) _) as [[? ?]|].
  - rewrite !aggregateFeedback_eq. destruct (checkSignatures _ _ _); [|done].
    by destruct (abi_decode _) as [[??]|].
  - rewrite !requestReportDecryption_eq. simpl.
    destruct (negb _); [done|]. by destruct (negb _).
  - rewrite !decryptReport_eq. destruct (checkSignatures _ _ _); [|done].
    by destruct (abi_decode _) as [[??]|].
  - unfold getEncryptedCategoryScore. destruct (require _ _); [|done]. simpl.
    unfold mbind, res_bind. by destruct (vget _ _).
  - unfold getEncryptedOverallScore.
    change (onlyExecutive env (set_feedbackPeriod s p)) with (onlyExecutive env s).
    by destruct (onlyExecutive env s).
  - by destruct (Hset q).
  - by destruct g.
Qed.
End Payload.

(** Bytes after the encoding are not read. *)
Lemma abi_decode_app (avgs : vec N 5) (overall : N) extra :
  Forall (λ a, a < 2 ^ 32) (vec_to_list avgs) → overall < 2 ^ 32 →
  abi_decode (abi_encode avgs overall ++ extra) = Ok (avgs, overall).
Proof.
  intros Havgs Ho.
  pose proof (abi_decode_encode avgs overall Havgs Ho) as Hd.
  apply abi_decode_Ok in Hd as (_ & Hw & Ha & Hov). apply abi_decode_Ok.
  assert (∀ k, (k < 6)%nat →
            word_at (abi_encode avgs overall ++ extra) k
            = word_at (abi_encode avgs overall) k) as Hword.
  { intros k Hk. rewrite <- word_at_take by done.
    rewrite take_app_length' by (symmetry; apply length_abi_encode). done. }
  rewrite length_app, length_abi_encode. split; [lia|].
  rewrite !Hword by lia. split; [|done].
  intros k Hk. rewrite Hword by done. auto.
Qed.

Section Decoding.
Context `{FHE : FHELib}.

(** X13. Encoding and decoding round trip through the callback: a payload
    that encodes five averages and an overall score fitting [uint32],
    followed by any further bytes and carrying a verifying proof, is accepted
    and the caller's report holds the handles of exactly those values. *)
Theorem encoded_report_round_trip env requestId avgScores overallScore extra
    proof s :
  Forall (λ a, a < 2 ^ 32) (vec_to_list avgScores) → overallScore < 2 ^ 32 →
  checkSignatures requestId (abi_encode avgScores overallScore ++ extra) proof
  = true →
  aggregateFeedback env requestId (abi_encode avgScores overallScore ++ extra)
    proof s
  = Ok (generated env avgScores overallScore s)
  ∧ mget (reports (state (generated env avgScores overallScore s))) (sender env)
    = decoded_report avgScores overallScore.
Proof.
  intros Havgs Ho Hsig. split.
  - by rewrite aggregateFeedback_eq, Hsig, abi_decode_app.
  - simpl. apply mget_insert.
Qed.

(** X14. A decryption callback is accepted exactly when its proof verifies
    and its cleartexts have at least 192 bytes whose six words are below
    [2^32], whoever calls and whatever the storage holds. The decoded scores
    are dropped: the outcome is the unchanged storage and the event
    [ReportDecrypted] naming the caller. *)
Theorem decryptReport_accepted_iff env requestId cleartexts proof s :
  (is_Ok (decryptReport env requestId cleartexts proof s)
   ↔ checkSignatures requestId cleartexts proof = true
     ∧ (192 ≤ length cleartexts)%nat
     ∧ ∀ k, (k < 6)%nat → word_at cleartexts k < 2 ^ 32)
  ∧ (∀ o, decryptReport env requestId cleartexts proof s = Ok o →
       o = {| state := s; effects := [ReportDecrypted (sender env)];
              retdata := [] |}).
Proof.
  unfold is_Ok. rewrite decryptReport_eq. split; [split|].
  - intros [o Ho]. destruct (checkSignatures _ _ _); [|done].
    destruct (abi_decode cleartexts) as [[avgs overall]|] eqn:Hd; [|done].
    apply abi_decode_Ok in Hd as (? & ? & _). done.
  - intros (-> & Hlen & Hw).
    assert (abi_decode cleartexts = Ok _) as -> by (apply abi_decode_Ok; eauto).
    eauto.
  - intros o. destruct (checkSignatures _ _ _); [|done].
    destruct (abi_decode cleartexts) as [[avgs overall]|]; [|done]. congruence.
Qed.

End Decoding.

(** * The frontend *)

Module AppFacts.
Import App.

Lemma lt_Finite a b : lt (Finite a) (Finite b) = true ↔ (a < b)%Q.
Proof.
  simpl. rewrite negb_true_iff. split.
  - intros H. apply Qnot_le_lt. intros Hle. apply Qle_bool_iff in Hle. congruence.
  - intros H. destruct (Qle_bool b a) eqn:Hle; [|done].
    apply Qle_bool_iff in Hle. lra.
Qed.

Lemma le_Finite a b : le (Finite a) (Finite b) = true ↔ (a <= b)%Q.
Proof. apply Qle_bool_iff. Qed.

(** Exactly one of the three statistics counts a sentiment that is a number. *)
Lemma sentiment_classes x :
  is_NaN x = false →
  (gt x half = true ∧ (le x half && ge x minus_half) = false ∧ lt x minus_half = false)
  ∨ (gt x half = false ∧ (le x half && ge x minus_half) = true ∧ lt x minus_half = false)
  ∨ (gt x half = false ∧ (le x half && ge x minus_half) = false ∧ lt x minus_half = true).
Proof.
  destruct x as [q| | |]; [|by left|by right; right|done]. intros _.
  unfold gt, ge, half, minus_half.
  destruct (lt (Finite (1#2)) (Finite q)) eqn:H1;
    destruct (le (Finite q) (Finite (1#2))) eqn:H2;
    destruct (le (Finite (-1#2)) (Finite q)) eqn:H3;
    destruct (lt (Finite q) (Finite (-1#2))) eqn:H4; simpl; auto;
    exfalso;
    repeat match goal with
           | H : lt (Finite _) (Finite _) = true |- _ => apply lt_Finite in H
           | H : le (Finite _) (Finite _) = true |- _ => apply le_Finite in H
           | H : lt (Finite ?a) (Finite ?b) = false |- _ =>
               assert (¬ (a < b)%Q) by (rewrite <- lt_Finite; congruence); clear H
           | H : le (Finite ?a) (Finite ?b) = false |- _ =>
               assert (¬ (a <= b)%Q) by (rewrite <- le_Finite; congruence); clear H
           end; lra.
Qed.

Lemma count_classes (l : list FeedbackRecord) :
  Forall (λ f, is_NaN (sentiment f) = false) l →
  (positiveCount l + neutralCount l + negativeCount l = length l)%nat.
Proof.
  unfold positiveCount, neutralCount, negativeCount.
  induction 1 as [|f l Hf _ IH]; [done|]. cbn [List.filter].
  destruct (sentiment_classes (sentiment f) Hf)
    as [(-> & -> & ->)|[(-> & -> & ->)|(-> & -> & ->)]]; cbn [length]; lia.
Qed.

Lemma number_lt_trans x y z : lt x y = true → lt y z = true → lt x z = true.
Proof.
  destruct x as [a| | |], y as [b| | |], z as [c| | |]; try done.
  rewrite !lt_Finite. lra.
Qed.


(** ** The records at run time *)

Lemma is_finite_not_NaN x : Runtime.is_finite x = true → is_NaN x = false.
Proof. by destruct x. Qed.






(** The statistics on declared records are the statistics at run time. *)
Lemma declared_counts `{H : Runtime.Host} (l : list FeedbackRecord) :
  Runtime.positiveCount (Runtime.declared <$> l) = positiveCount l
  ∧ Runtime.neutralCount (Runtime.declared <$> l) = neutralCount l
  ∧ Runtime.negativeCount (Runtime.declared <$> l) = negativeCount l.
Proof.
  unfold Runtime.positiveCount, Runtime.neutralCount, Runtime.negativeCount,
    positiveCount, neutralCount, negativeCount.
  repeat split; induction l as [|f l IH]; try done; cbn [fmap list_fmap List.filter];
    cbn [Runtime.declared Runtime.sentiment Runtime.ToNumber];
    destruct (_ : bool); cbn [length]; by rewrite IH.
Qed.

Section Statistics.
Context `{H : Runtime.Host}.



End Statistics.





Section Loading.
Context `{H : Runtime.Host}.











End Loading.

Lemma indicator_class (f : FeedbackRecord) :
  is_NaN (sentiment f) = false →
  bool_decide (indicator f = positive) = gt (sentiment f) half
  ∧ bool_decide (indicator f = neutral)
    = le (sentiment f) half && ge (sentiment f) minus_half
  ∧ bool_decide (indicator f = negative) = lt (sentiment f) minus_half.
Proof.
  intros Hf. unfold indicator.
  by destruct (sentiment_classes (sentiment f) Hf)
    as [(-> & -> & ->)|[(-> & -> & ->)|(-> & -> & ->)]].
Qed.

(** X18. On records whose sentiment is a number the indicator of the cards
    and the statistics agree: the cards marked positive, neutral and negative
    are as many as the positive, neutral and negative counts. *)
Theorem indicator_matches_statistics (feedbacks : list FeedbackRecord) :
  Forall (λ f, is_NaN (sentiment f) = false) feedbacks →
  length (List.filter (λ f, bool_decide (indicator f = positive)) feedbacks)
  = positiveCount feedbacks
  ∧ length (List.filter (λ f, bool_decide (indicator f = neutral)) feedbacks)
    = neutralCount feedbacks
  ∧ length (List.filter (λ f, bool_decide (indicator f = negative)) feedbacks)
    = negativeCount feedbacks.
Proof.
  intros Hall. unfold positiveCount, neutralCount, negativeCount.
  repeat split; f_equal; apply List.filter_ext_in; intros f Hf%list_elem_of_In;
    eapply Forall_forall in Hall; try done; by apply indicator_class.
Qed.

Lemma startsWith_prefix s t : startsWith s t = true ↔ ∃ b, s = t ++ b.
Proof.
  revert s. induction t as [|c t IH]; intros s; simpl.
  { split; [by exists s|done]. }
  destruct s as [|a s]; [split; [done|by intros [? ?]]|].
  rewrite andb_true_iff, N.eqb_eq, IH. split.
  - intros [-> [b ->]]. eauto.
  - intros [b [= -> ->]]. eauto.
Qed.

Lemma includes_infix s t : includes s t = true ↔ ∃ a b, s = a ++ t ++ b.
Proof.
  induction s as [|x s IH]; simpl.
  - rewrite orb_false_r, startsWith_prefix. split.
    + intros [b Hb]. by exists [], b.
    + intros (a & b & Hs). symmetry in Hs.
      apply app_eq_nil in Hs as [-> Hs]. eauto.
  - rewrite orb_true_iff, startsWith_prefix, IH. split.
    + intros [[b Hb]|(a & b & ->)]; [by exists [], b|by exists (x :: a), b].
    + intros ([|y a] & b & Hs); simpl in Hs; [left; eauto|].
      injection Hs as -> ->. right. eauto.
Qed.

Lemma includes_trans s t u :
  includes s t = true → includes t u = true → includes s u = true.
Proof.
  rewrite !includes_infix. intros (a & b & ->) (c & d & ->).
  exists (a ++ c), (d ++ b). by rewrite <- !(assoc_L (++)).
Qed.

Lemma includes_empty s : includes s [] = true.
Proof. apply includes_infix. by exists [], s. Qed.

Lemma filter_filter_bool {A} (p q : A → bool) l :
  (∀ x, q x = true → p x = true) →
  List.filter q (List.filter p l) = List.filter q l.
Proof.
  intros Hqp. induction l as [|x l IH]; [done|]. simpl.
  destruct (p x) eqn:Hp; simpl.
  - by rewrite IH.
  - destruct (q x) eqn:Hq; [|done]. apply Hqp in Hq. congruence.
Qed.

(** X21. The search filter. With a lower-casing that maps the empty string
    to itself the empty term shows every record, and searching the results
    of a term that the new term contains gives what searching all records
    gives. *)
Theorem search_filter toLowerCase (feedbacks : list FeedbackRecord) :
  (toLowerCase [] = [] → filteredFeedbacks toLowerCase feedbacks [] = feedbacks)
  ∧ (∀ term wider,
       includes (toLowerCase term) (toLowerCase wider) = true →
       filteredFeedbacks toLowerCase
         (filteredFeedbacks toLowerCase feedbacks wider) term
       = filteredFeedbacks toLowerCase feedbacks term).
Proof.
  split.
  - intros Hnil. unfold filteredFeedbacks. rewrite Hnil.
    induction feedbacks as [|f l IH]; [done|]. simpl.
    by rewrite includes_empty, IH.
  - intros term wider Hinc. unfold filteredFeedbacks.
    apply filter_filter_bool. intros f [H|H]%orb_true_iff; apply orb_true_iff.
    + left. by eapply includes_trans.
    + right. by eapply includes_trans.
Qed.

End AppFacts.

(** * The protocol run: instances of the theorems and the counterexamples *)

#[local] Existing Instance stubFHE.

(** [alice] issued request 0 and delivers its callback: the report of
    [alice] holds the decoded handles, request 0 is no longer pending, and
    the same callback is accepted again. *)
Lemma aggregateFeedback_overwrites_witness :
  let s := storage w_requested in
  let o := generated (by_ alice) [# 80; 70; 90; 60; 100] 80 s in
  let delivered := AggregateFeedback 0 payload_a (stub_proof 0 payload_a) in
  issuer w_requested 0 aggregateFeedback_selector = Some alice
  ∧ aggregateFeedback (by_ alice) 0 payload_a (stub_proof 0 payload_a) s = Ok o
  ∧ issuer (world_step (by_ alice) delivered w_requested) 0
      aggregateFeedback_selector = None
  ∧ exec (by_ alice) delivered
      (storage (world_step (by_ alice) delivered w_requested))
    = storage (world_step (by_ alice) delivered w_requested).
Proof.
  intros s o delivered.
  assert (issuer w_requested 0 aggregateFeedback_selector = Some alice)
    as Hissued by (vm_compute; reflexivity).
  assert (aggregateFeedback (by_ alice) 0 payload_a (stub_proof 0 payload_a) s
          = Ok o) as H by (vm_compute; reflexivity).
  destruct (aggregateFeedback_overwrites (by_ alice) 0 payload_a
              (stub_proof 0 payload_a) w_requested alice o Hissued eq_refl H)
    as (_ & _ & Hdone & _ & Hagain).
  split; [exact Hissued|]. split; [exact H|]. split; [exact Hdone|exact Hagain].
Defined.

(** Against C1 as stated. Request 0 was issued by [alice] and completed by an
    accepted callback, so [alice]'s report is aggregated. A second callback for
    request 0, carrying another payload with its proof, is accepted too and
    replaces the average handles of that report: nothing compares the flag. *)
Lemma aggregateFeedback_second_callback_overwrites :
  let s := storage w_done in
  let again := AggregateFeedback 0 payload_b (stub_proof 0 payload_b) in
  issuer w_requested 0 aggregateFeedback_selector = Some alice
  ∧ isAggregated (mget (reports s) alice) = true
  ∧ succeeds (call (by_ alice) again s) = true
  ∧ encryptedAvgScores (mget (reports (exec (by_ alice) again s)) alice)
    ≠ encryptedAvgScores (mget (reports s) alice).
Proof. vm_compute. repeat split; discriminate. Qed.

(** C2. Request 0 was issued by [alice]. Its callback, delivered by the
    relayer, is accepted; the decoded handles and the flag land in the report
    of the relayer, [ReportGenerated] names the relayer, and the report of
    [alice] is still not aggregated, so that [alice] cannot ask for its
    decryption. *)
Lemma aggregateFeedback_relayed_misses_requester :
  let delivered := AggregateFeedback 0 payload_a (stub_proof 0 payload_a) in
  issuer w_requested 0 aggregateFeedback_selector = Some alice
  ∧ call (by_ relayer) delivered (storage w_requested)
    = Ok (generated (by_ relayer) [# 80; 70; 90; 60; 100] 80
            (storage w_requested))
  ∧ isAggregated (mget (reports (storage w_relayed)) alice) = false
  ∧ mget (reports (storage w_relayed)) relayer
    = decoded_report [# 80; 70; 90; 60; 100] 80
  ∧ requestReportDecryption (by_ alice) (storage w_relayed)
    = Err (Revert "Report not ready").
Proof. vm_compute. repeat split. Qed.

(** The threshold boundary: four records are refused, five are enough. *)
Lemma requestAggregation_gate_witness :
  mget (isExecutive (storage w_five)) alice = true
  ∧ 11 * feedbackCount (storage w_five) ≤ MAX_UINT256
  ∧ 11 * feedbackCount (storage w_four) ≤ MAX_UINT256
  ∧ is_Ok (requestAggregation (by_ alice) (storage w_five))
  ∧ requestAggregation (by_ alice) (storage w_four)
    = Err (Revert "Insufficient feedback").
Proof.
  assert (mget (isExecutive (storage w_five)) (sender (by_ alice)) = true)
    as He5 by reflexivity.
  assert (mget (isExecutive (storage w_four)) (sender (by_ alice)) = true)
    as He4 by reflexivity.
  assert (11 * feedbackCount (storage w_five) ≤ MAX_UINT256)
    as Hr5 by (vm_compute; discriminate).
  assert (11 * feedbackCount (storage w_four) ≤ MAX_UINT256)
    as Hr4 by (vm_compute; discriminate).
  destruct (requestAggregation_gate (by_ alice) (storage w_five) He5 Hr5)
    as (Hiff & _).
  destruct (requestAggregation_gate (by_ alice) (storage w_four) He4 Hr4)
    as (_ & _ & Hlow & _).
  split; [exact He5|]. split; [exact Hr5|]. split; [exact Hr4|]. split.
  - apply Hiff. split; [vm_compute; discriminate | reflexivity].
  - apply Hlow; [reflexivity | vm_compute; reflexivity].
Defined.

(** Against C3 as stated. [alice]'s request is still pending, no callback
    having been delivered, and [requestAggregation] succeeds for [alice] again:
    two requests of [alice] are then pending. *)
Lemma requestAggregation_ignores_pending :
  pendingAggregation w_requested alice = true
  ∧ succeeds (call (by_ alice) RequestAggregation (storage w_requested)) = true
  ∧ length (pending (world_step (by_ alice) RequestAggregation w_requested))
    = 2%nat.
Proof. vm_compute. repeat split. Qed.

(** A tampered payload under the proof of another payload is rejected, and
    [alice]'s report stays unaggregated. *)
Lemma rejected_callback_changes_nothing_witness :
  let forged := AggregateFeedback 0 payload_b (stub_proof 0 payload_a) in
  checkSignatures 0 payload_b (stub_proof 0 payload_a) = false
  ∧ isAggregated (mget (reports (storage w_requested)) alice) = false
  ∧ world_step (by_ alice) forged w_requested = w_requested
  ∧ isAggregated
      (mget (reports (storage (world_step (by_ alice) forged w_requested))) alice)
    = false.
Proof.
  intros forged.
  assert (checkSignatures 0 payload_b (stub_proof 0 payload_a) = false)
    as Hsig by (vm_compute; reflexivity).
  assert (isAggregated (mget (reports (storage w_requested)) alice) = false)
    as Hagg by reflexivity.
  destruct (rejected_callback_changes_nothing (by_ alice) 0 payload_b
              (stub_proof 0 payload_a) forged w_requested
              (or_introl eq_refl) (or_introl Hsig)) as (_ & _ & Hw & Hkeep).
  split; [exact Hsig|]. split; [exact Hagg|]. split; [exact Hw|].
  exact (Hkeep alice Hagg).
Defined.

(** The fifth submission, by reviewer 25 for [alice]. *)
Lemma submitFeedback_spec_witness :
  let s := storage w_four in
  feedbackCount s < MAX_UINT256
  ∧ mget (isReviewer s) 25 = true
  ∧ mget (isExecutive s) alice = true
  ∧ ∃ o, submitFeedback (by_ 25) alice [# 1; 2; 3; 4; 5] [# 6; 7; 8; 9; 10] 11 s
         = Ok o
       ∧ feedbackCount (state o) = 5
       ∧ effects o = [FeedbackSubmitted 5 alice].
Proof.
  intros s.
  assert (feedbackCount s < MAX_UINT256) as Hlt by reflexivity.
  assert (mget (isReviewer s) (sender (by_ 25)) = true) as Hr by reflexivity.
  assert (mget (isExecutive s) alice = true) as He by reflexivity.
  destruct (submitFeedback_spec (by_ 25) alice [# 1; 2; 3; 4; 5]
              [# 6; 7; 8; 9; 10] 11 s Hlt) as (_ & _ & _ & Hok).
  destruct (Hok Hr He) as (o & Ho & Hn & _ & _ & _ & _ & _ & Heff & _).
  split; [exact Hlt|]. split; [exact Hr|]. split; [exact He|].
  exists o. split; [exact Ho|]. split; [exact Hn | exact Heff].
Defined.

(** Against C5 as stated. The fifth submission succeeds and stores record 5,
    yet the call returns no value: the id is only in the event. *)
Lemma submitFeedback_returns_nothing :
  ∃ o, call (by_ 25) (feedback_of 25) (storage w_four) = Ok o
     ∧ feedbackCount (state o) = 5
     ∧ effects o = [FeedbackSubmitted 5 alice]
     ∧ retdata o = []
     ∧ retdata o ≠ [5].
Proof. eexists. split; [vm_compute; reflexivity|]. vm_compute. repeat split. discriminate. Qed.

(** Before the callback [alice]'s decryption request is refused, after it the
    request goes through. *)
Lemma requestReportDecryption_gate_witness :
  mget (isExecutive (storage w_done)) alice = true
  ∧ isAggregated (mget (reports (storage w_requested)) alice) = false
  ∧ isAggregated (mget (reports (storage w_done)) alice) = true
  ∧ requestReportDecryption (by_ alice) (storage w_requested)
    = Err (Revert "Report not ready")
  ∧ is_Ok (requestReportDecryption (by_ alice) (storage w_done)).
Proof.
  assert (mget (isExecutive (storage w_done)) (sender (by_ alice)) = true)
    as He by reflexivity.
  assert (mget (isExecutive (storage w_requested)) (sender (by_ alice)) = true)
    as He' by reflexivity.
  assert (isAggregated (mget (reports (storage w_requested)) (sender (by_ alice)))
          = false) as Hn by reflexivity.
  assert (isAggregated (mget (reports (storage w_done)) (sender (by_ alice)))
          = true) as Hy by (vm_compute; reflexivity).
  destruct (requestReportDecryption_gate (by_ alice) (storage w_requested) He')
    as (Hbefore & _).
  destruct (requestReportDecryption_gate (by_ alice) (storage w_done) He)
    as (_ & Hafter).
  split; [exact He|]. split; [exact Hn|]. split; [exact Hy|]. split.
  - exact (proj1 (Hbefore Hn)).
  - eexists. exact (Hafter Hy).
Defined.

(** The request of [alice] over the five records carries fifty-five handles. *)
Lemma requestAggregation_ciphertexts_witness :
  let o := aggregation_request (storage w_five) alice in
  requestAggregation (by_ alice) (storage w_five) = Ok o
  ∧ records_of (storage w_five) alice = [1; 2; 3; 4; 5]
  ∧ length (executive_handles (storage w_five) alice) = 55%nat
  ∧ effects o
    = [RequestComputation (executive_handles (storage w_five) alice)
         aggregateFeedback_selector;
       AggregationRequested alice].
Proof.
  intros o.
  assert (requestAggregation (by_ alice) (storage w_five) = Ok o)
    as H by (vm_compute; reflexivity).
  destruct (requestAggregation_ciphertexts _ _ _ H) as (Heff & Hlen & _).
  split; [exact H|]. split; [vm_compute; reflexivity|].
  split; [vm_compute; reflexivity | exact Heff].
Defined.

(** Record 3 reads the same after the rest of the protocol has run. *)
Lemma feedback_log_append_only_witness :
  let later :=
    [(by_ 25, feedback_of 25); (by_ alice, RequestAggregation);
     (by_ alice, AggregateFeedback 0 payload_a (stub_proof 0 payload_a));
     (by_ alice, RequestReportDecryption); (by_ admin, SetFeedbackPeriod 0)] in
  3 ≤ feedbackCount (storage w_four)
  ∧ feedbacks (run later (storage w_four)) !! 3 = feedbacks (storage w_four) !! 3
  ∧ feedbackCount (storage w_four) ≤ feedbackCount (run later (storage w_four)).
Proof.
  intros later.
  assert (3 ≤ feedbackCount (storage w_four)) as Hi by (vm_compute; discriminate).
  destruct (feedback_log_append_only later (storage w_four) 3 Hi) as (Hsame & Hle & _).
  split; [exact Hi|]. split; [exact Hsame | exact Hle].
Defined.

(** A decryption request by [alice] and a decryption callback delivered by the
    relayer, both accepted, leave the storage as it was. *)
Lemma decryption_read_only_witness :
  let s := storage w_done in
  let cleartexts := abi_encode [# 80; 70; 90; 60; 100] 80 in
  let o1 := {| state := s;
               effects := [RequestDecryption (report_handles (mget (reports s) alice))
                             decryptReport_selector];
               retdata := [] |} in
  let o2 := {| state := s; effects := [ReportDecrypted relayer]; retdata := [] |} in
  requestReportDecryption (by_ alice) s = Ok o1
  ∧ decryptReport (by_ relayer) 1 cleartexts (stub_proof 1 cleartexts) s = Ok o2
  ∧ state o1 = s ∧ state o2 = s.
Proof.
  intros s cleartexts o1 o2.
  assert (requestReportDecryption (by_ alice) s = Ok o1)
    as H1 by (vm_compute; reflexivity).
  assert (decryptReport (by_ relayer) 1 cleartexts (stub_proof 1 cleartexts) s = Ok o2)
    as H2 by (vm_compute; reflexivity).
  split; [exact H1|]. split; [exact H2|]. split.
  - exact (proj1 (decryption_read_only (by_ alice) 0 [] [] s o1 (or_introl H1))).
  - exact (proj1 (decryption_read_only (by_ relayer) 1 cleartexts
                    (stub_proof 1 cleartexts) s o2 (or_intror H2))).
Defined.

(** The relayer, who holds no role, reads category 2 of [alice]'s report and
    is refused category 5. *)
Lemma getEncryptedCategoryScore_total_witness :
  (2 : N) < 5 ∧ (5 : N) ≤ 5
  ∧ getEncryptedCategoryScore (by_ relayer) alice 5 (storage w_done)
    = Err (Revert "Invalid category")
  ∧ ∃ h, getEncryptedCategoryScore (by_ relayer) alice 2 (storage w_done)
         = Ok {| state := storage w_done; effects := []; retdata := [h] |}.
Proof.
  assert ((2 : N) < 5) as Hlt by reflexivity.
  assert ((5 : N) ≤ 5) as Hge by (vm_compute; discriminate).
  destruct (getEncryptedCategoryScore_total (by_ relayer) alice 5 (storage w_done))
    as (_ & Hbad & _).
  destruct (getEncryptedCategoryScore_total (by_ relayer) alice 2 (storage w_done))
    as (_ & _ & Hgood).
  split; [exact Hlt|]. split; [exact Hge|]. split; [exact (Hbad Hge)|].
  destruct (Hgood Hlt) as (h & _ & Hh). exists h. exact Hh.
Defined.

(** ** Instances of the further properties *)

(** Address 50 enrols itself in both roles on a fresh contract and reviews
    itself. *)
Lemma self_enrolment_allows_self_review_witness :
  let env := by_ 50 in
  let s' := run [(env, RegisterExecutive); (env, ApproveReviewer 50);
                 (env, SubmitFeedback 50 [# 1; 2; 3; 4; 5] [# 6; 7; 8; 9; 10] 11)]
              initial in
  feedbackCount initial < MAX_UINT256
  ∧ feedbackCount s' = feedbackCount initial + 1
  ∧ feedbacks s' !! (feedbackCount initial + 1)
    = Some (new_record env 50 [# 1; 2; 3; 4; 5] [# 6; 7; 8; 9; 10] 11).
Proof.
  intros env s'.
  assert (feedbackCount initial < MAX_UINT256) as H by reflexivity.
  split; [exact H|].
  exact (self_enrolment_allows_self_review env [# 1; 2; 3; 4; 5]
           [# 6; 7; 8; 9; 10] 11 initial H).
Defined.

(** After the completed aggregation a sixth submission and a new period do
    not reopen it. *)
Lemma aggregated_is_permanent_witness :
  let s := storage w_done in
  let txs := [(by_ 21, feedback_of 21); (by_ admin, SetFeedbackPeriod 0)] in
  isAggregated (mget (reports s) alice) = true
  ∧ mget (isExecutive s) alice = true
  ∧ isAggregated (mget (reports (run txs s)) alice) = true
  ∧ requestAggregation (by_ alice) (run txs s)
    = Err (Revert "Already aggregated").
Proof.
  intros s txs.
  assert (isAggregated (mget (reports s) (sender (by_ alice))) = true)
    as Hagg by reflexivity.
  assert (mget (isExecutive s) (sender (by_ alice)) = true) as He by reflexivity.
  destruct (aggregated_is_permanent txs (by_ alice) s Hagg) as [Hstill Hrev].
  split; [exact Hagg|]. split; [exact He|]. split; [exact Hstill|].
  exact (Hrev He).
Defined.

(** The relayer's callback leaves the entry of [alice] as it was. *)
Lemma report_written_only_by_own_callback_witness :
  let s := storage w_five in
  let txs := [(by_ alice, RequestAggregation);
              (by_ relayer,
               AggregateFeedback 0 payload_a (stub_proof 0 payload_a))] in
  existsb (delivers_as alice) txs = false
  ∧ reports (run txs s) !! alice = reports s !! alice.
Proof.
  intros s txs.
  assert (existsb (delivers_as alice) txs = false) as H by reflexivity.
  split; [exact H|].
  exact (report_written_only_by_own_callback txs s alice H).
Defined.

(** Before any callback the report of [alice] reads as zero handles. *)
Lemma unaggregated_report_reads_zero_witness :
  let s := run history_five initial in
  isAggregated (mget (reports s) alice) = false
  ∧ reports s !! alice = None
  ∧ getEncryptedCategoryScore (by_ relayer) alice 4 s
    = Ok {| state := s; effects := []; retdata := [0] |}.
Proof.
  intros s.
  assert (isAggregated (mget (reports s) alice) = false) as H by reflexivity.
  destruct (unaggregated_report_reads_zero history_five alice H)
    as (Hnone & Hcat & _).
  split; [exact H|]. split; [exact Hnone|].
  apply Hcat. reflexivity.
Defined.

(** The fifth submission appends record 5 and its eleven handles. *)
Lemma submitFeedback_extends_records_witness :
  let s := storage w_four in
  let sc : vec N 5 := [# 1; 2; 3; 4; 5] in
  let w : vec N 5 := [# 6; 7; 8; 9; 10] in
  let o := submitted (by_ 25) alice sc w 11 s in
  submitFeedback (by_ 25) alice sc w 11 s = Ok o
  ∧ records_of (state o) alice = records_of s alice ++ [feedbackCount s + 1]
  ∧ executive_handles (state o) alice
    = executive_handles s alice
      ++ record_handles (new_record (by_ 25) alice sc w 11).
Proof.
  intros s sc w o.
  assert (submitFeedback (by_ 25) alice sc w 11 s = Ok o)
    as H by (vm_compute; reflexivity).
  destruct (submitFeedback_extends_records _ _ _ _ _ _ _ H) as (Hr & Hh & _).
  split; [exact H|]. split; [exact Hr|exact Hh].
Defined.

(** Reviewer 21 alone fills the quota of [alice]. *)
Lemma single_reviewer_reaches_threshold_witness :
  let s := run enrolment initial in
  let subs := replicate 5 ([# 1; 2; 3; 4; 5], [# 6; 7; 8; 9; 10], 11) in
  mget (isReviewer s) 21 = true
  ∧ mget (isExecutive s) alice = true
  ∧ isAggregated (mget (reports s) alice) = false
  ∧ MIN_REVIEWERS ≤ N.of_nat (length subs)
  ∧ 11 * (feedbackCount s + N.of_nat (length subs)) ≤ MAX_UINT256
  ∧ is_Ok (requestAggregation (by_ alice)
             (run (submissions (by_ 21) alice subs) s)).
Proof.
  intros s subs.
  assert (mget (isReviewer s) (sender (by_ 21)) = true) as Hr by reflexivity.
  assert (mget (isExecutive s) (sender (by_ alice)) = true) as He by reflexivity.
  assert (isAggregated (mget (reports s) (sender (by_ alice))) = false)
    as Hn by reflexivity.
  assert (MIN_REVIEWERS ≤ N.of_nat (length subs))
    as Hmin by (vm_compute; discriminate).
  assert (11 * (feedbackCount s + N.of_nat (length subs)) ≤ MAX_UINT256)
    as Hmax by (vm_compute; discriminate).
  repeat (split; [assumption|]).
  exact (single_reviewer_reaches_threshold (by_ 21) (by_ alice) subs s
           Hr He Hn Hmin Hmax).
Defined.

(** The aggregation request of [alice] under a period of zero. *)
Lemma feedbackPeriod_is_inert_witness :
  let s := storage w_five in
  (∀ q, RequestAggregation ≠ SetFeedbackPeriod q)
  ∧ RequestAggregation ≠ Read get_feedbackPeriod
  ∧ call (by_ alice) RequestAggregation (set_feedbackPeriod s 0)
    = with_period 0 (call (by_ alice) RequestAggregation s).
Proof.
  intros s.
  assert (∀ q, RequestAggregation ≠ SetFeedbackPeriod q) as Hset by discriminate.
  assert (RequestAggregation ≠ Read get_feedbackPeriod) as Hread by discriminate.
  split; [exact Hset|]. split; [exact Hread|].
  exact (feedbackPeriod_is_inert (by_ alice) RequestAggregation s 0 Hset Hread).
Defined.

(** The payload of request 0 followed by two further bytes. *)
Lemma encoded_report_round_trip_witness :
  let s := storage w_requested in
  let avgs : vec N 5 := [# 80; 70; 90; 60; 100] in
  let extra := [x00; x01] in
  let proof := stub_proof 0 (abi_encode avgs 80 ++ extra) in
  Forall (λ a, a < 2 ^ 32) (vec_to_list avgs)
  ∧ 80 < 2 ^ 32
  ∧ checkSignatures 0 (abi_encode avgs 80 ++ extra) proof = true
  ∧ aggregateFeedback (by_ alice) 0 (abi_encode avgs 80 ++ extra) proof s
    = Ok (generated (by_ alice) avgs 80 s)
  ∧ mget (reports (state (generated (by_ alice) avgs 80 s))) alice
    = decoded_report avgs 80.
Proof.
  intros s avgs extra proof.
  assert (Forall (λ a, a < 2 ^ 32) (vec_to_list avgs))
    as Havgs by (repeat constructor).
  assert (80 < 2 ^ 32) as Ho by reflexivity.
  assert (checkSignatures 0 (abi_encode avgs 80 ++ extra) proof = true)
    as Hsig by (vm_compute; reflexivity).
  split; [exact Havgs|]. split; [exact Ho|]. split; [exact Hsig|].
  exact (encoded_report_round_trip (by_ alice) 0 avgs 80 extra proof s
           Havgs Ho Hsig).
Defined.

(** After the callback of request 0 [alice] can ask for the decryption. *)
Lemma decryption_request_after_aggregation_witness :
  let s := storage w_requested in
  let o := generated (by_ alice) [# 80; 70; 90; 60; 100] 80 s in
  mget (isExecutive s) alice = true
  ∧ aggregateFeedback (by_ alice) 0 payload_a (stub_proof 0 payload_a) s = Ok o
  ∧ is_Ok (requestReportDecryption (by_ alice) (state o)).
Proof.
  intros s o.
  assert (mget (isExecutive s) (sender (by_ alice)) = true) as He by reflexivity.
  assert (aggregateFeedback (by_ alice) 0 payload_a (stub_proof 0 payload_a) s
          = Ok o) as H by (vm_compute; reflexivity).
  split; [exact He|]. split; [exact H|].
  destruct (decryption_request_after_aggregation _ _ _ _ _ _ He H)
    as (avgs & overall & _ & Hreq).
  eexists. exact Hreq.
Defined.

(** The accessors after the callback of request 0. *)
Lemma accessors_after_aggregation_witness :
  let s := storage w_requested in
  let o := generated (by_ alice) [# 80; 70; 90; 60; 100] 80 s in
  aggregateFeedback (by_ alice) 0 payload_a (stub_proof 0 payload_a) s = Ok o
  ∧ ∃ avgScores overallScore,
      abi_decode payload_a = Ok (avgScores, overallScore)
      ∧ getEncryptedOverallScore (by_ alice) alice (state o)
        = Ok {| state := state o; effects := [];
                retdata := [asEuint32 overallScore] |}.
Proof.
  intros s o.
  assert (aggregateFeedback (by_ alice) 0 payload_a (stub_proof 0 payload_a) s
          = Ok o) as H by (vm_compute; reflexivity).
  split; [exact H|].
  destruct (accessors_after_aggregation _ _ _ _ _ _ H)
    as (avgs & overall & Hd & _ & Hov).
  exists avgs, overall. split; [exact Hd|].
  apply Hov. reflexivity.
Defined.



(** A stored sentiment ["high"] is truthy, so [|| 0] keeps it; it converts
    to no number and the record is counted by none of the statistics. *)
Lemma string_sentiment_counted_by_none :
  let H := App.Runtime.demo_host in
  let kept := App.Runtime.or_zero (App.Runtime.Str (App.units "high")) in
  let f := {| App.Runtime.id := App.Runtime.Str (App.units "k");
              App.Runtime.encryptedData := App.Runtime.Undefined;
              App.Runtime.timestamp := App.Runtime.Num (App.Finite 1);
              App.Runtime.from := App.Runtime.Undefined;
              App.Runtime.feedbackType := App.Runtime.Undefined;
              App.Runtime.sentiment := kept |} in
  kept = App.Runtime.Str (App.units "high")
  ∧ (App.Runtime.positiveCount [f] + App.Runtime.neutralCount [f]
     + App.Runtime.negativeCount [f] = 0)%nat.
Proof. vm_compute. by split. Qed.

Lemma indicator_matches_statistics_witness :
  let record s :=
    {| App.id := App.units "k"; App.encryptedData := App.units "FHE-x";
       App.timestamp := App.Finite 1; App.from := App.units "0xA1";
       App.feedbackType := App.units "Strategy"; App.sentiment := s |} in
  let feedbacks := [record (App.Finite (9 # 10)); record (App.Finite 0);
                    record (App.Finite (- 3 # 4)); record App.Infinity] in
  Forall (λ f, App.is_NaN (App.sentiment f) = false) feedbacks
  ∧ length (List.filter (λ f, bool_decide (App.indicator f = App.positive))
              feedbacks)
    = App.positiveCount feedbacks.
Proof.
  intros record feedbacks.
  assert (Forall (λ f, App.is_NaN (App.sentiment f) = false) feedbacks)
    as H by (repeat constructor).
  split; [exact H|].
  exact (proj1 (AppFacts.indicator_matches_statistics feedbacks H)).
Defined.


